(** * aiida-lammps: the LAMMPS structure file of a StructureData

    A shallow embedding of [aiida_lammps/common/generate_structure.py]:
    [transform_cell], which brings a crystal cell into the lower-triangular
    orientation LAMMPS expects, and [generate_lammps_structure], which
    renders the structure file.

    Numbers are real numbers (the source computes with numpy's float64, of
    which the reals are the exact-arithmetic reading).  What the source takes
    from numpy and from Python's formatter is a parameter of the development:
    the QR factorisation [np.linalg.qr], the rounding [np.round] and the
    rendering of a float as text. *)

From Stdlib Require Import Reals Lra Psatz.
From Stdlib Require Import List String Ascii Bool Arith ZArith Lia.
From Stdlib Require Import Sorting.Mergesort Sorting.Sorted Sorting.Permutation.
From Stdlib Require Import Orders DecimalString.
Import ListNotations.

Local Open Scope R_scope.

(** ** Fixed-size arrays: 3-vectors and 3x3 matrices *)

Module Np.

Record vec3 : Type := V3 { v0 : R; v1 : R; v2 : R }.

Record mat3 : Type := M3 {
  m00 : R; m01 : R; m02 : R;
  m10 : R; m11 : R; m12 : R;
  m20 : R; m21 : R; m22 : R }.

(** The indices of [range(3)]. *)
Inductive idx : Type := I0 | I1 | I2.

Definition range3 : list idx := [I0; I1; I2].

(** [a[i, j]] *)
Definition get (a : mat3) (i j : idx) : R :=
  match i, j with
  | I0, I0 => m00 a | I0, I1 => m01 a | I0, I2 => m02 a
  | I1, I0 => m10 a | I1, I1 => m11 a | I1, I2 => m12 a
  | I2, I0 => m20 a | I2, I1 => m21 a | I2, I2 => m22 a
  end.

(** [a[i, j] = x] *)
Definition set (a : mat3) (i j : idx) (x : R) : mat3 :=
  match i, j with
  | I0, I0 => M3 x (m01 a) (m02 a) (m10 a) (m11 a) (m12 a) (m20 a) (m21 a) (m22 a)
  | I0, I1 => M3 (m00 a) x (m02 a) (m10 a) (m11 a) (m12 a) (m20 a) (m21 a) (m22 a)
  | I0, I2 => M3 (m00 a) (m01 a) x (m10 a) (m11 a) (m12 a) (m20 a) (m21 a) (m22 a)
  | I1, I0 => M3 (m00 a) (m01 a) (m02 a) x (m11 a) (m12 a) (m20 a) (m21 a) (m22 a)
  | I1, I1 => M3 (m00 a) (m01 a) (m02 a) (m10 a) x (m12 a) (m20 a) (m21 a) (m22 a)
  | I1, I2 => M3 (m00 a) (m01 a) (m02 a) (m10 a) (m11 a) x (m20 a) (m21 a) (m22 a)
  | I2, I0 => M3 (m00 a) (m01 a) (m02 a) (m10 a) (m11 a) (m12 a) x (m21 a) (m22 a)
  | I2, I1 => M3 (m00 a) (m01 a) (m02 a) (m10 a) (m11 a) (m12 a) (m20 a) x (m22 a)
  | I2, I2 => M3 (m00 a) (m01 a) (m02 a) (m10 a) (m11 a) (m12 a) (m20 a) (m21 a) x
  end.

(** [np.eye(3)] *)
Definition eye3 : mat3 := M3 1 0 0  0 1 0  0 0 1.

(** [np.transpose(a)], [a.T] *)
Definition transpose (a : mat3) : mat3 :=
  M3 (m00 a) (m10 a) (m20 a)
     (m01 a) (m11 a) (m21 a)
     (m02 a) (m12 a) (m22 a).

(** [np.dot(a, b)] of two matrices. *)
Definition dot (a b : mat3) : mat3 :=
  M3 (m00 a * m00 b + m01 a * m10 b + m02 a * m20 b)
     (m00 a * m01 b + m01 a * m11 b + m02 a * m21 b)
     (m00 a * m02 b + m01 a * m12 b + m02 a * m22 b)
     (m10 a * m00 b + m11 a * m10 b + m12 a * m20 b)
     (m10 a * m01 b + m11 a * m11 b + m12 a * m21 b)
     (m10 a * m02 b + m11 a * m12 b + m12 a * m22 b)
     (m20 a * m00 b + m21 a * m10 b + m22 a * m20 b)
     (m20 a * m01 b + m21 a * m11 b + m22 a * m21 b)
     (m20 a * m02 b + m21 a * m12 b + m22 a * m22 b).

(** [np.dot(a, v)] of a matrix and a vector. *)
Definition dot_vec (a : mat3) (v : vec3) : vec3 :=
  V3 (m00 a * v0 v + m01 a * v1 v + m02 a * v2 v)
     (m10 a * v0 v + m11 a * v1 v + m12 a * v2 v)
     (m20 a * v0 v + m21 a * v1 v + m22 a * v2 v).

(** The rows of a matrix, as numpy iterates over a two-dimensional array. *)
Definition row (a : mat3) (i : idx) : vec3 :=
  V3 (get a i I0) (get a i I1) (get a i I2).

(** Elementwise application, as in [np.round(a, dp) + 0.0]. *)
Definition map_mat (f : R -> R) (a : mat3) : mat3 :=
  M3 (f (m00 a)) (f (m01 a)) (f (m02 a))
     (f (m10 a)) (f (m11 a)) (f (m12 a))
     (f (m20 a)) (f (m21 a)) (f (m22 a)).

Definition map_vec (f : R -> R) (v : vec3) : vec3 :=
  V3 (f (v0 v)) (f (v1 v)) (f (v2 v)).

(** Scalar product and Euclidean distance of vectors. *)
Definition inner (u v : vec3) : R := v0 u * v0 v + v1 u * v1 v + v2 u * v2 v.

Definition sub (u v : vec3) : vec3 := V3 (v0 u - v0 v) (v1 u - v1 v) (v2 u - v2 v).

Definition distance (u v : vec3) : R := sqrt (inner (sub u v) (sub u v)).

(** Determinant, adjugate and scaling, for the algebra of the proofs. *)
Definition det (a : mat3) : R :=
  m00 a * (m11 a * m22 a - m12 a * m21 a)
  - m01 a * (m10 a * m22 a - m12 a * m20 a)
  + m02 a * (m10 a * m21 a - m11 a * m20 a).

Definition adj (a : mat3) : mat3 :=
  M3 (m11 a * m22 a - m12 a * m21 a) (m02 a * m21 a - m01 a * m22 a) (m01 a * m12 a - m02 a * m11 a)
     (m12 a * m20 a - m10 a * m22 a) (m00 a * m22 a - m02 a * m20 a) (m02 a * m10 a - m00 a * m12 a)
     (m10 a * m21 a - m11 a * m20 a) (m01 a * m20 a - m00 a * m21 a) (m00 a * m11 a - m01 a * m10 a).

Definition scale (c : R) (a : mat3) : mat3 := map_mat (fun x => c * x) a.

(** [diag a b c] is the diagonal matrix with these entries. *)
Definition diag (a b c : R) : mat3 := M3 a 0 0  0 b 0  0 0 c.

Definition upper_triangular (a : mat3) : Prop :=
  m10 a = 0 /\ m20 a = 0 /\ m21 a = 0.

(** The columns of [q] are orthonormal. *)
Definition orthogonal (q : mat3) : Prop := dot (transpose q) q = eye3.

End Np.

Import Np.

(** ** The contract of [np.linalg.qr(a, mode="complete")]

    numpy returns an orthogonal [q] and an upper-triangular [r] (the part
    below the diagonal is cleared) with [a = q r]. *)
Definition is_qr (a : mat3) (qr_a : mat3 * mat3) : Prop :=
  let (q, r) := qr_a in
  dot q r = a /\ orthogonal q /\ upper_triangular r.

(** ** transform_cell *)

Section TransformCell.

(** [np.linalg.qr(_, mode="complete")] *)
Variable qr : mat3 -> mat3 * mat3.

(** The loop over [range(3)] that puts [-1.0] on the diagonal of [inversion]
    wherever the diagonal of [new_cell] is negative. *)
Definition inversion_loop (new_cell : mat3) (inversion : mat3) : mat3 :=
  fold_left
    (fun inversion entry =>
       if Rlt_dec (get new_cell entry entry) 0.0
       then set inversion entry entry (-1.0)
       else inversion)
    range3 inversion.

Definition transform_cell (cell : mat3) : mat3 * mat3 :=
  let '(transform, upper_tri) := qr (transpose cell) in
  let new_cell := transpose upper_tri in
  let inversion := inversion_loop new_cell eye3 in
  let new_cell := transpose (dot inversion (transpose new_cell)) in
  let transform := transpose (dot transform (transpose inversion)) in
  (new_cell, transform).

End TransformCell.

(** ** Python values the serializer works with *)

Local Open Scope string_scope.

(** The exceptions the serializer raises: [ValueError] for an [atom_style]
    it does not know (the specification's [UnsupportedModeError]) and the
    [KeyError] of a failed dictionary subscript (the specification's
    [InconsistentKindError]). *)
Inductive exn : Type := ValueError | KeyError.

Inductive result (A : Type) : Type :=
| Ok (a : A)
| Raise (e : exn).

Arguments Ok {A} a.
Arguments Raise {A} e.

Definition bind {A B : Type} (m : result A) (k : A -> result B) : result B :=
  match m with
  | Ok a => k a
  | Raise e => Raise e
  end.

Notation "x <- m ;; k" := (bind m (fun x => k))
  (at level 61, m at next level, right associativity).

(** A [dict] with [str] keys, in insertion order. *)
Module Dict.

Definition t (V : Type) : Type := list (string * V).

Definition empty {V : Type} : t V := [].

(** [d.get(k)] *)
Fixpoint get {V : Type} (d : t V) (k : string) : option V :=
  match d with
  | [] => None
  | (k', v) :: rest => if String.eqb k' k then Some v else get rest k
  end.

(** [k in d] *)
Definition contains {V : Type} (d : t V) (k : string) : bool :=
  match get d k with
  | Some _ => true
  | None => false
  end.

(** [d[k] = v]: a key already present keeps its place. *)
Fixpoint set {V : Type} (d : t V) (k : string) (v : V) : t V :=
  match d with
  | [] => [(k, v)]
  | (k', v') :: rest =>
      if String.eqb k' k then (k', v) :: rest else (k', v') :: set rest k v
  end.

(** [d[k]] *)
Definition getitem {V : Type} (d : t V) (k : string) : result V :=
  match get d k with
  | Some v => Ok v
  | None => Raise KeyError
  end.

(** [d.get(k, default)] *)
Definition get_default {V : Type} (d : t V) (k : string) (default : V) : V :=
  match get d k with
  | Some v => v
  | None => default
  end.

(** [list(d.keys())] *)
Definition keys {V : Type} (d : t V) : list string := map fst d.

(** [len(d)] *)
Definition len {V : Type} (d : t V) : nat := List.length d.

End Dict.

(** [sorted] on a list of [str]: Python compares strings lexicographically by
    code point, as [String.leb] does. *)
Module StringOrder <: TotalLeBool.
Definition t := string.
Definition leb := String.leb.
Theorem leb_total : forall a1 a2, leb a1 a2 = true \/ leb a2 a1 = true.
Proof. exact String.leb_total. Qed.
End StringOrder.

Module StringSort := Sort StringOrder.

Definition sorted (l : list string) : list string := StringSort.sort l.

(** [str(n)] of a non-negative [int]. *)
Definition str_int (n : nat) : string := NilZero.string_of_uint (Nat.to_uint n).

(** Modelled from the spec: the structure object belongs to aiida-core, not to
    this repository.  It exposes the Sites (species label, Cartesian
    position), the Kinds (label, mass) and the 3x3 cell; [get_ase] hands the
    cell and the site positions over as arrays. *)
Record Site : Type := { kind_name : string; position : vec3 }.

Record Kind : Type := { name : string; mass : R }.

Record StructureData : Type := {
  cell : mat3;
  sites : list Site;
  kinds : list Kind }.

Record Atoms : Type := { atoms_cell : mat3; atoms_positions : list vec3 }.

Definition get_ase (structure : StructureData) : Atoms :=
  {| atoms_cell := cell structure;
     atoms_positions := map position (sites structure) |}.

(** ** generate_lammps_structure *)

(** The mapping of atom kind name to id number: the loop over
    [structure.sites]. *)
Definition kind_name_id_map_of (sites : list Site) : Dict.t nat :=
  fold_left
    (fun kind_name_id_map site =>
       if negb (Dict.contains kind_name_id_map (kind_name site))
       then Dict.set kind_name_id_map (kind_name site)
                     (Dict.len kind_name_id_map + 1)%nat
       else kind_name_id_map)
    sites Dict.empty.

(** The mapping of atom kind name to mass: the dict comprehension over
    [structure.kinds]. *)
Definition kind_mass_dict_of (kinds : list Kind) : Dict.t R :=
  fold_left (fun d kind => Dict.set d (name kind) (mass kind)) kinds Dict.empty.

(** The truth value of a number in [if round_dp:]: zero is false.  ([None]
    is false as well.) *)
Definition truthy (dp : Z) : bool := negb (Z.eqb dp 0).

(** The line feed that the source writes as a backslash followed by [n]. *)
Definition nl : string := String (ascii_of_nat 10) EmptyString.

Section GenerateStructure.

Variable qr : mat3 -> mat3 * mat3.

(** [np.round(x, decimals)] on one component. *)
Variable np_round : R -> Z -> R.

(** The rendering [f"{x:20.10f}"] of a float. *)
Variable fmt_20_10f : R -> string.

(** The rendering [f"{charge}"] of a charge. *)
Variable str_float : R -> string.

(** [np.round(a, dp) + 0.0] *)
Definition round_value (dp : Z) (x : R) : R := (np_round x dp + 0.0)%R.

(** The three lines of the box extents and the line of the tilt factors. *)
Definition box_lines (cell : mat3) (filestring : string) : string :=
  let filestring :=
    filestring ++ ("0.0 " ++ fmt_20_10f (get cell I0 I0) ++ " xlo xhi" ++ nl) in
  let filestring :=
    filestring ++ ("0.0 " ++ fmt_20_10f (get cell I1 I1) ++ " ylo yhi" ++ nl) in
  let filestring :=
    filestring ++ ("0.0 " ++ fmt_20_10f (get cell I2 I2) ++ " zlo zhi" ++ nl) in
  filestring ++
    (fmt_20_10f (get cell I1 I0) ++ " " ++ fmt_20_10f (get cell I2 I0) ++ " "
     ++ fmt_20_10f (get cell I2 I1) ++ " xy xz yz" ++ nl ++ nl).

(** One line of the mass table. *)
Definition mass_line (kind_id : nat) (m : R) : string :=
  str_int kind_id ++ " " ++ fmt_20_10f m ++ " " ++ nl.

(** The loop over [sorted(list(kind_name_id_map.keys()))]. *)
Fixpoint masses_loop (kind_name_id_map : Dict.t nat) (kind_mass_dict : Dict.t R)
    (names : list string) (filestring : string) : result string :=
  match names with
  | [] => Ok filestring
  | kind_name :: rest =>
      kind_id <- Dict.getitem kind_name_id_map kind_name ;;
      m <- Dict.getitem kind_mass_dict kind_name ;;
      masses_loop kind_name_id_map kind_mass_dict rest
        (filestring ++ mass_line kind_id m)
  end.

(** The three position fields that end a line of the atom table. *)
Definition position_fields (pos : vec3) : string :=
  " " ++ fmt_20_10f (v0 pos) ++ " " ++ fmt_20_10f (v1 pos) ++ " "
  ++ fmt_20_10f (v2 pos) ++ nl.

(** The body of the loop over [enumerate(zip(positions, structure.sites))]. *)
Definition atoms_body (atom_style : string) (charge_dict : Dict.t R)
    (kind_name_id_map : Dict.t nat) (site_index : nat) (pos : vec3) (site : Site)
    (filestring : string) : result string :=
  kind_id <- Dict.getitem kind_name_id_map (kind_name site) ;;
  let filestring :=
    if String.eqb atom_style "atomic" then
      let filestring :=
        filestring ++ (str_int (site_index + 1) ++ " " ++ str_int kind_id) in
      filestring ++ position_fields pos
    else filestring in
  let filestring :=
    if String.eqb atom_style "charge" then
      let charge := Dict.get_default charge_dict (kind_name site) 0.0%R in
      let filestring :=
        filestring ++ (str_int (site_index + 1) ++ " " ++ str_int kind_id
                       ++ " " ++ str_float charge) in
      filestring ++ position_fields pos
    else filestring in
  Ok filestring.

Fixpoint atoms_loop (atom_style : string) (charge_dict : Dict.t R)
    (kind_name_id_map : Dict.t nat) (site_index : nat)
    (zipped : list (vec3 * Site)) (filestring : string) : result string :=
  match zipped with
  | [] => Ok filestring
  | (pos, site) :: rest =>
      filestring <- atoms_body atom_style charge_dict kind_name_id_map
                      site_index pos site filestring ;;
      atoms_loop atom_style charge_dict kind_name_id_map (S site_index) rest
        filestring
  end.

Definition generate_lammps_structure (structure : StructureData)
    (atom_style : string) (charge_dict : option (Dict.t R))
    (round_dp : option Z) (docstring : string) : result (string * mat3) :=
  if negb (existsb (String.eqb atom_style) ["atomic"; "charge"]) then
    Raise ValueError
  else
  let charge_dict :=
    match charge_dict with None => Dict.empty | Some d => d end in
  let kind_name_id_map := kind_name_id_map_of (sites structure) in
  let kind_mass_dict := kind_mass_dict_of (kinds structure) in
  let filestring := "" in
  let filestring := filestring ++ ("# " ++ docstring ++ nl ++ nl) in
  let filestring :=
    filestring ++ (str_int (List.length (sites structure)) ++ " atoms" ++ nl) in
  let filestring :=
    filestring
    ++ (str_int (Dict.len kind_name_id_map) ++ " atom types" ++ nl ++ nl) in
  let atoms := get_ase structure in
  let '(cell, coord_transform) := transform_cell qr (atoms_cell atoms) in
  let positions := map (dot_vec coord_transform) (atoms_positions atoms) in
  let '(cell, positions) :=
    match round_dp with
    | Some dp =>
        if truthy dp then
          (map_mat (round_value dp) cell,
           map (map_vec (round_value dp)) positions)
        else (cell, positions)
    | None => (cell, positions)
    end in
  let filestring := box_lines cell filestring in
  let filestring := filestring ++ ("Masses" ++ nl ++ nl) in
  filestring <- masses_loop kind_name_id_map kind_mass_dict
                  (sorted (Dict.keys kind_name_id_map)) filestring ;;
  let filestring := filestring ++ nl in
  let filestring := filestring ++ ("Atoms" ++ nl ++ nl) in
  filestring <- atoms_loop atom_style charge_dict kind_name_id_map 0
                  (combine positions (sites structure)) filestring ;;
  Ok (filestring, coord_transform).

End GenerateStructure.

(** ** The specification's notions, for comparison with the code *)

Module Spec.

(** The atom-representation modes as the specification names them. *)
Definition supported_modes : list string := ["atomic"; "charged"].

(** The species labels in first-encounter order: each label once, at the
    place of its first occurrence. *)
Fixpoint first_encounter (seen labels : list string) : list string :=
  match labels with
  | [] => []
  | l :: rest =>
      if existsb (String.eqb l) seen then first_encounter seen rest
      else l :: first_encounter (seen ++ [l]) rest
  end.

(** The KindIndex: the labels in first-encounter order, numbered from 1. *)
Definition kind_index (labels : list string) : list (string * nat) :=
  let ks := first_encounter [] labels in
  combine ks (seq 1 (List.length ks)).

(** The correction sign of one diagonal entry. *)
Definition flip (x : R) : R := if Rlt_dec x 0 then (-1)%R else 1%R.

End Spec.

(** ** The rendered file, piece by piece *)

(** The concatenation of lines. *)
Definition join (lines : list string) : string :=
  fold_right String.append "" lines.

Section Layout.

Variable qr : mat3 -> mat3 * mat3.
Variable np_round : R -> Z -> R.
Variable fmt_20_10f : R -> string.
Variable str_float : R -> string.

(** The comment line and the two counts. *)
Definition header_text (docstring : string) (n_sites n_kinds : nat) : string :=
  "# " ++ docstring ++ nl ++ nl
  ++ str_int n_sites ++ " atoms" ++ nl
  ++ str_int n_kinds ++ " atom types" ++ nl ++ nl.

(** The cell and the positions as they are rendered: rounded when
    [round_dp] is a number other than zero. *)
Definition rendered_cell (round_dp : option Z) (c : mat3) : mat3 :=
  match round_dp with
  | Some dp => if truthy dp then map_mat (round_value np_round dp) c else c
  | None => c
  end.

Definition rendered_position (round_dp : option Z) (p : vec3) : vec3 :=
  match round_dp with
  | Some dp => if truthy dp then map_vec (round_value np_round dp) p else p
  | None => p
  end.

(** The mass line of a species label. *)
Definition mass_line_of (kind_name_id_map : Dict.t nat)
    (kind_mass_dict : Dict.t R) (label : string) : string :=
  mass_line fmt_20_10f
    (Dict.get_default kind_name_id_map label 0%nat)
    (Dict.get_default kind_mass_dict label 0%R).

(** The atom line of the site with 0-based index [site_index]. *)
Definition atom_line (atom_style : string) (charge_dict : Dict.t R)
    (kind_name_id_map : Dict.t nat) (site_index : nat) (pos : vec3)
    (site : Site) : string :=
  let kind_id := Dict.get_default kind_name_id_map (kind_name site) 0%nat in
  if String.eqb atom_style "atomic" then
    str_int (site_index + 1) ++ " " ++ str_int kind_id
    ++ position_fields fmt_20_10f pos
  else
    str_int (site_index + 1) ++ " " ++ str_int kind_id ++ " "
    ++ str_float (Dict.get_default charge_dict (kind_name site) 0%R)
    ++ position_fields fmt_20_10f pos.

Fixpoint atom_lines (atom_style : string) (charge_dict : Dict.t R)
    (kind_name_id_map : Dict.t nat) (site_index : nat)
    (zipped : list (vec3 * Site)) : list string :=
  match zipped with
  | [] => []
  | (pos, site) :: rest =>
      atom_line atom_style charge_dict kind_name_id_map site_index pos site
      :: atom_lines atom_style charge_dict kind_name_id_map (S site_index) rest
  end.

(** The box extents and the tilt factors of a cell. *)
Definition box_text (c : mat3) : string :=
  "0.0 " ++ fmt_20_10f (get c I0 I0) ++ " xlo xhi" ++ nl
  ++ "0.0 " ++ fmt_20_10f (get c I1 I1) ++ " ylo yhi" ++ nl
  ++ "0.0 " ++ fmt_20_10f (get c I2 I2) ++ " zlo zhi" ++ nl
  ++ fmt_20_10f (get c I1 I0) ++ " " ++ fmt_20_10f (get c I2 I0) ++ " "
  ++ fmt_20_10f (get c I2 I1) ++ " xy xz yz" ++ nl ++ nl.

(** The lines of the mass table of a structure. *)
Definition mass_table (structure : StructureData) : list string :=
  let kind_name_id_map := kind_name_id_map_of (sites structure) in
  map (mass_line_of kind_name_id_map (kind_mass_dict_of (kinds structure)))
      (sorted (Dict.keys kind_name_id_map)).

(** The position of a site in the frame of the transformed cell, as it is
    rendered. *)
Definition site_position (structure : StructureData) (round_dp : option Z)
    (site : Site) : vec3 :=
  rendered_position round_dp
    (dot_vec (snd (transform_cell qr (cell structure))) (position site)).

(** The lines of the atom table of a structure. *)
Definition atom_table (structure : StructureData) (atom_style : string)
    (charge_dict : option (Dict.t R)) (round_dp : option Z) : list string :=
  atom_lines atom_style
    (match charge_dict with None => Dict.empty | Some d => d end)
    (kind_name_id_map_of (sites structure)) 0
    (combine (map (site_position structure round_dp) (sites structure))
             (sites structure)).

(** The whole file. *)
Definition file_text (structure : StructureData) (atom_style : string)
    (charge_dict : option (Dict.t R)) (round_dp : option Z)
    (docstring : string) : string :=
  header_text docstring (List.length (sites structure))
    (Dict.len (kind_name_id_map_of (sites structure)))
  ++ box_text
       (rendered_cell round_dp (fst (transform_cell qr (cell structure))))
  ++ "Masses" ++ nl ++ nl
  ++ join (mass_table structure)
  ++ nl
  ++ "Atoms" ++ nl ++ nl
  ++ join (atom_table structure atom_style charge_dict round_dp).

End Layout.

(** ** Concrete data for the examples *)

Module Examples.

(** A factorisation oracle that answers with a given pair. *)
Definition qr_of (q r : mat3) : mat3 -> mat3 * mat3 := fun _ => (q, r).

(** The factors of a Householder factorisation: a reflection that exchanges
    the first two axes, and a triangular factor whose first and last diagonal
    entries are negative. *)
Definition q1 : mat3 := M3 0 (-1) 0  (-1) 0 0  0 0 1.
Definition r1 : mat3 := M3 (-1) (-1) 0  0 1 1  0 0 (-1).

(** The cell whose transpose is [q1 r1]. *)
Definition cell1 : mat3 := M3 0 1 0  (-1) 1 0  (-1) 0 (-1).

Definition origin : vec3 := V3 0 0 0.

Definition fe2o : StructureData :=
  {| cell := cell1;
     sites := [ {| kind_name := "O"; position := origin |};
                {| kind_name := "Fe"; position := V3 1 0 0 |};
                {| kind_name := "O"; position := V3 0 1 0 |} ];
     kinds := [ {| name := "Fe"; mass := 55.845 |};
                {| name := "O"; mass := 15.999 |} ] |}.

(** The same sites, with the Kind of oxygen left out. *)
Definition no_oxygen : StructureData :=
  {| cell := cell1;
     sites := sites fe2o;
     kinds := [ {| name := "Fe"; mass := 55.845 |} ] |}.

(** A Kind that no Site uses. *)
Definition spare_kind : StructureData :=
  {| cell := cell1;
     sites := [ {| kind_name := "O"; position := origin |} ];
     kinds := [ {| name := "Fe"; mass := 55.845 |};
                {| name := "O"; mass := 15.999 |} ] |}.

Definition no_round : R -> Z -> R := fun x _ => x.
Definition fmt_any : R -> string := fun _ => "x".

End Examples.

(** ** The calculation plugin

    [BaseLammpsCalculation] of [calculations/lammps/base.py]: the validator
    of the inputs and [prepare_for_submission], which writes the files of a
    calculation into a folder and says which files to retrieve. *)

Module Calc.

(** The values of the [parameters] dictionary. *)
#[warnings="-register-all"]
Inductive pyvalue : Type :=
| PyNone
| PyBool (b : bool)
| PyInt (n : Z)
| PyFloat (x : R)
| PyStr (s : string)
| PyList (l : list pyvalue)
| PyDict (d : list (string * pyvalue)).

(** The truth value of a value in an [if]. *)
Definition truth (v : pyvalue) : bool :=
  match v with
  | PyNone => false
  | PyBool b => b
  | PyInt n => negb (Z.eqb n 0)
  | PyFloat x => if Req_dec_T x 0%R then false else true
  | PyStr s => negb (String.eqb s "")
  | PyList l => match l with [] => false | _ :: _ => true end
  | PyDict d => match d with [] => false | _ :: _ => true end
  end.

(** The exceptions of [prepare_for_submission]: those of the serializer, the
    [AttributeError] of a missing attribute, which names the attribute, and
    the failure of [generate_input_file], with its message. *)
Inductive calc_exn : Type :=
| StructureError (e : exn)
| AttributeError (attribute : string)
| InputFileError (message : string).

Inductive outcome (A : Type) : Type :=
| Done (a : A)
| Fail (e : calc_exn).

Arguments Done {A} a.
Arguments Fail {A} e.

(** [v.get(key, default)]: only a dictionary has the method. *)
Definition py_get (v : pyvalue) (key : string) (default : pyvalue)
    : outcome pyvalue :=
  match v with
  | PyDict d => Done (Dict.get_default d key default)
  | _ => Fail (AttributeError "get")
  end.

(** Modelled from the spec: the inputs, the folder and the two records of
    the result belong to aiida-core, and [LammpsPotentialData] and
    [generate_input_file] to modules of this repository that are not at
    hand.  The inputs are a namespace of optional ports; a potential has an
    atom style and a file content; a folder maps file names to contents. *)
Record Options : Type := {
  input_filename : string;
  structure_filename : string;
  output_filename : string;
  logfile_filename : string;
  variables_filename : string;
  trajectory_filename : string;
  restart_filename : string }.

Record LammpsPotentialData : Type := {
  atom_style : string;
  get_content : string }.

Record Inputs : Type := {
  script : option string;
  structure : option StructureData;
  potential : option LammpsPotentialData;
  parameters : option (Dict.t pyvalue);
  input_restartfile : option string;
  parent_folder : option string;
  code_uuid_of : string;
  options : Options }.

Record CalcJob : Type := { inputs : Inputs; uuid : string }.

Record CodeInfo : Type := {
  cmdline_params : list string;
  code_uuid : string;
  stdout_name : string }.

Record CalcInfo : Type := {
  calc_uuid : string;
  retrieve_temporary_list : list (string * string * option Z);
  retrieve_list : list string;
  codes_info : list CodeInfo }.

Definition Folder : Type := Dict.t string.

Definition is_some {A : Type} (o : option A) : bool :=
  match o with Some _ => true | None => false end.

(** [key in value] for the namespace of the inputs. *)
Definition contains (value : Inputs) (key : string) : bool :=
  if String.eqb key "script" then is_some (script value)
  else if String.eqb key "structure" then is_some (structure value)
  else if String.eqb key "potential" then is_some (potential value)
  else if String.eqb key "parameters" then is_some (parameters value)
  else if String.eqb key "input_restartfile" then
    is_some (input_restartfile value)
  else if String.eqb key "parent_folder" then is_some (parent_folder value)
  else if String.eqb key "code" then true
  else if String.eqb key "metadata" then true
  else false.

Definition validate_inputs (value : Inputs) : option string :=
  if negb (contains value "script")
     && existsb (fun key => negb (contains value key))
                ["structure"; "potential"; "parameters"]
  then
    Some ("Unless `script` is specified the inputs `structure`, `potential` and "
          ++ "`parameters` have to be specified.")
  else None.

(** Computations that write into the folder and may raise; what was written
    before an exception stays written. *)
Definition M (A : Type) : Type := Folder -> Folder * outcome A.

Definition ret {A : Type} (a : A) : M A := fun folder => (folder, Done a).

Definition lift {A : Type} (o : outcome A) : M A := fun folder => (folder, o).

Definition mbind {A B : Type} (m : M A) (k : A -> M B) : M B :=
  fun folder =>
    match m folder with
    | (folder', Done a) => k a folder'
    | (folder', Fail e) => (folder', Fail e)
    end.

Notation "x <~ m ;; k" := (mbind m (fun x => k))
  (at level 61, m at next level, right associativity).

(** [with folder.open(filename, "w") as handle: handle.write(content)] *)
Definition write_file (filename content : string) : M unit :=
  fun folder => (Dict.set folder filename content, Done tt).

(** [self.inputs.port] *)
Definition getattr {A : Type} (port : option A) (attribute : string) : M A :=
  match port with
  | Some a => ret a
  | None => lift (Fail (AttributeError attribute))
  end.

Definition _DEFAULT_POTENTIAL_FILENAME : string := "potential.dat".
Definition _DEFAULT_READ_RESTART_FILENAME : string := "aiida_lammps.restart".

Section PrepareForSubmission.

Variable qr : mat3 -> mat3 * mat3.
Variable np_round : R -> Z -> R.
Variable fmt_20_10f : R -> string.
Variable str_float : R -> string.

(** [generate_input_file], which checks the parameters against its schema
    and answers with the input script or raises. *)
Variable generate_input_file :
  LammpsPotentialData -> StructureData -> Dict.t pyvalue ->
  string -> string -> string -> option string -> string + string.

(** The branch without a script: the structure file, the potential file and
    the content of the input file. *)
Definition files_of_the_inputs (self : CalcJob)
    (_restart_filename _trajectory_filename _variables_filename : string)
    (_read_restart_filename : option string)
    : M (string * Dict.t pyvalue) :=
  _parameters <~ getattr (parameters (inputs self)) "parameters" ;;
  the_structure <~ getattr (structure (inputs self)) "structure" ;;
  the_potential <~ getattr (potential (inputs self)) "potential" ;;
  match generate_lammps_structure qr np_round fmt_20_10f str_float
          the_structure (atom_style the_potential) None None
          "generated by aiida_lammps" with
  | Raise e => lift (Fail (StructureError e))
  | Ok (structure_filecontent, _) =>
      let _structure_filename := structure_filename (options (inputs self)) in
      _ <~ write_file _structure_filename structure_filecontent ;;
      _ <~ write_file _DEFAULT_POTENTIAL_FILENAME (get_content the_potential) ;;
      match generate_input_file the_potential the_structure _parameters
              _restart_filename _trajectory_filename _variables_filename
              _read_restart_filename with
      | inl input_filecontent => ret (input_filecontent, _parameters)
      | inr message => lift (Fail (InputFileError message))
      end
  end.

(** The files to retrieve on account of the [restart] parameters. *)
Definition restart_retrieval (_parameters : Dict.t pyvalue)
    (_restart_filename : string) (retrieve_list : list string)
    (retrieve_temporary_list : list (string * string * option Z))
    : M (list string * list (string * string * option Z)) :=
  if Dict.contains _parameters "restart" then
    print_final <~
      lift (py_get (Dict.get_default _parameters "restart" (PyDict []))
              "print_final" (PyBool false)) ;;
    let retrieve_list :=
      if truth print_final then (retrieve_list ++ [_restart_filename])%list
      else retrieve_list in
    print_intermediate <~
      lift (py_get (Dict.get_default _parameters "restart" (PyDict []))
              "print_intermediate" (PyBool false)) ;;
    let retrieve_temporary_list :=
      if truth print_intermediate then
        (retrieve_temporary_list
         ++ [((_restart_filename ++ "*")%string, ".", None)])%list
      else retrieve_temporary_list in
    ret (retrieve_list, retrieve_temporary_list)
  else ret (retrieve_list, retrieve_temporary_list).

Definition prepare_for_submission (self : CalcJob) : M CalcInfo :=
  let _trajectory_filename := trajectory_filename (options (inputs self)) in
  let _variables_filename := variables_filename (options (inputs self)) in
  let _restart_filename := restart_filename (options (inputs self)) in
  let _output_filename := output_filename (options (inputs self)) in
  let _logfile_filename := logfile_filename (options (inputs self)) in
  _read_restart_filename <~
    match input_restartfile (inputs self) with
    | Some content =>
        _ <~ write_file _DEFAULT_READ_RESTART_FILENAME content ;;
        ret (Some _DEFAULT_READ_RESTART_FILENAME)
    | None => ret None
    end ;;
  content_and_parameters <~
    match script (inputs self) with
    | Some content => ret (content, Dict.empty)
    | None =>
        files_of_the_inputs self _restart_filename _trajectory_filename
          _variables_filename _read_restart_filename
    end ;;
  let input_filecontent := fst content_and_parameters in
  let _parameters := snd content_and_parameters in
  let _input_filename := input_filename (options (inputs self)) in
  _ <~ write_file _input_filename input_filecontent ;;
  let codeinfo :=
    {| cmdline_params := ["-in"; _input_filename; "-log"; _logfile_filename];
       code_uuid := code_uuid_of (inputs self);
       stdout_name := _output_filename |} in
  let retrieve_temporary_list := [] in
  let retrieve_list := [] in
  let retrieve_list := (retrieve_list ++ [_output_filename])%list in
  let retrieve_list := (retrieve_list ++ [_logfile_filename])%list in
  let retrieve_list := (retrieve_list ++ [_variables_filename])%list in
  let retrieve_list := (retrieve_list ++ [_trajectory_filename])%list in
  lists <~ restart_retrieval _parameters _restart_filename retrieve_list
             retrieve_temporary_list ;;
  ret {| calc_uuid := uuid self;
         retrieve_temporary_list := snd lists;
         retrieve_list := fst lists;
         codes_info := [codeinfo] |}.

End PrepareForSubmission.

End Calc.

(** ** Calculations for the examples *)

Module CalcExamples.

Definition default_options : Calc.Options :=
  {| Calc.input_filename := "input.in";
     Calc.structure_filename := "structure.dat";
     Calc.output_filename := "lammps_output";
     Calc.logfile_filename := "log.lammps";
     Calc.variables_filename := "aiida_lammps.yaml";
     Calc.trajectory_filename := "aiida_lammps.trajectory.dump";
     Calc.restart_filename := "lammps.restart" |}.

(** Parameters that ask for the final restart file. *)
Definition with_final_restart : Dict.t Calc.pyvalue :=
  [("restart", Calc.PyDict [("print_final", Calc.PyBool true)])].

Definition pair_potential (atom_style : string) : Calc.LammpsPotentialData :=
  {| Calc.atom_style := atom_style; Calc.get_content := "pair_style eam" |}.

(** A calculation on a structure, and the same one with a script besides. *)
Definition on_structure (structure : StructureData) (atom_style : string)
    : Calc.CalcJob :=
  {| Calc.inputs :=
       {| Calc.script := None;
          Calc.structure := Some structure;
          Calc.potential := Some (pair_potential atom_style);
          Calc.parameters := Some with_final_restart;
          Calc.input_restartfile := Some "restart data";
          Calc.parent_folder := None;
          Calc.code_uuid_of := "code";
          Calc.options := default_options |};
     Calc.uuid := "calculation" |}.

Definition with_script : Calc.CalcJob :=
  {| Calc.inputs :=
       {| Calc.script := Some "run 0";
          Calc.structure := Some Examples.fe2o;
          Calc.potential := Some (pair_potential "atomic");
          Calc.parameters := Some with_final_restart;
          Calc.input_restartfile := None;
          Calc.parent_folder := None;
          Calc.code_uuid_of := "code";
          Calc.options := default_options |};
     Calc.uuid := "calculation" |}.

(** A calculation with neither a script nor a potential. *)
Definition without_potential : Calc.CalcJob :=
  {| Calc.inputs :=
       {| Calc.script := None;
          Calc.structure := Some Examples.fe2o;
          Calc.potential := None;
          Calc.parameters := Some with_final_restart;
          Calc.input_restartfile := None;
          Calc.parent_folder := None;
          Calc.code_uuid_of := "code";
          Calc.options := default_options |};
     Calc.uuid := "calculation" |}.

(** An input generator that accepts every parameter set. *)
Definition any_input_file :
  Calc.LammpsPotentialData -> StructureData -> Dict.t Calc.pyvalue ->
  string -> string -> string -> option string -> string + string :=
  fun _ _ _ _ _ _ _ => inl "units metal".

End CalcExamples.

(** ** Further data for the examples *)

Module MoreExamples.

(** A second factorisation of the transpose of [Examples.cell1]: a quarter
    turn about the third axis, and a triangular factor with one negative
    diagonal entry. *)
Definition q2 : mat3 := M3 0 (-1) 0  1 0 0  0 0 1.
Definition r2 : mat3 := M3 1 1 0  0 1 1  0 0 (-1).

(** The factorisation of a matrix that is triangular already. *)
Definition qr_triangular : mat3 -> mat3 * mat3 := fun a => (eye3, a).

(** A triangular cell with negative entries on its diagonal, and one in
    the orientation LAMMPS reads. *)
Definition cell2 : mat3 := M3 (-2) 0 0  1 3 0  0 1 (-4).
Definition cell3 : mat3 := M3 2 0 0  1 3 0  0 1 4.

(** A structure without sites, and one whose label [Fe] names two Kinds. *)
Definition no_sites : StructureData :=
  {| cell := cell3;
     sites := [];
     kinds := [ {| name := "Fe"; mass := 55.845 |} ] |}.

Definition fe_twice : list Kind :=
  [ {| name := "Fe"; mass := 1 |};
    {| name := "O"; mass := 15.999 |};
    {| name := "Fe"; mass := 55.845 |} ].

(** Charges for iron, for oxygen and for a species that no site has. *)
Definition charges : Dict.t R := [("Fe", 0%R); ("Xe", 5%R)].

End MoreExamples.

(** ** The orientation LAMMPS reads *)

(** A cell as LAMMPS wants it: lower-triangular, with a positive diagonal. *)
Definition lammps_cell (a : mat3) : Prop :=
  (m01 a = 0 /\ m02 a = 0 /\ m12 a = 0)%R
  /\ (0 < m00 a /\ 0 < m11 a /\ 0 < m22 a)%R.

(** ** Algebra of 3x3 matrices *)

Local Open Scope R_scope.

Lemma mat3_ext (a b : mat3) :
  m00 a = m00 b -> m01 a = m01 b -> m02 a = m02 b ->
  m10 a = m10 b -> m11 a = m11 b -> m12 a = m12 b ->
  m20 a = m20 b -> m21 a = m21 b -> m22 a = m22 b ->
  a = b.
Proof.
  destruct a, b; simpl; intros; subst; reflexivity.
Qed.

Lemma vec3_ext (u v : vec3) :
  v0 u = v0 v -> v1 u = v1 v -> v2 u = v2 v -> u = v.
Proof.
  destruct u, v; simpl; intros; subst; reflexivity.
Qed.

(** Entry-wise proof of a matrix or vector identity that holds in every
    commutative ring. *)
Ltac entrywise :=
  first [ apply mat3_ext | apply vec3_ext ];
  cbn [dot transpose eye3 scale map_mat adj diag dot_vec row get sub
       m00 m01 m02 m10 m11 m12 m20 m21 m22 v0 v1 v2];
  try ring.

Lemma dot_assoc (a b c : mat3) : dot (dot a b) c = dot a (dot b c).
Proof. entrywise. Qed.

Lemma dot_eye3_l (a : mat3) : dot eye3 a = a.
Proof. entrywise. Qed.

Lemma dot_eye3_r (a : mat3) : dot a eye3 = a.
Proof. entrywise. Qed.

Lemma transpose_involutive (a : mat3) : transpose (transpose a) = a.
Proof. entrywise. Qed.

Lemma transpose_dot (a b : mat3) :
  transpose (dot a b) = dot (transpose b) (transpose a).
Proof. entrywise. Qed.

Lemma transpose_eye3 : transpose eye3 = eye3.
Proof. entrywise. Qed.

Lemma transpose_diag (a b c : R) : transpose (diag a b c) = diag a b c.
Proof. entrywise. Qed.

Lemma dot_scale_r (c : R) (a b : mat3) : dot a (scale c b) = scale c (dot a b).
Proof. entrywise. Qed.

Lemma dot_adj (a : mat3) : dot a (adj a) = scale (det a) eye3.
Proof. unfold det. entrywise. Qed.

Lemma scale_scale (c d : R) (a : mat3) : scale c (scale d a) = scale (c * d) a.
Proof. entrywise. Qed.

Lemma scale_1 (a : mat3) : scale 1 a = a.
Proof. entrywise. Qed.

Lemma det_dot (a b : mat3) : det (dot a b) = det a * det b.
Proof. unfold det, dot; simpl; ring. Qed.

Lemma det_transpose (a : mat3) : det (transpose a) = det a.
Proof. unfold det, transpose; simpl; ring. Qed.

Lemma det_eye3 : det eye3 = 1.
Proof. unfold det, eye3; simpl; ring. Qed.

Lemma det_upper_triangular (a : mat3) :
  upper_triangular a -> det a = m00 a * m11 a * m22 a.
Proof.
  intros (H10 & H20 & H21). unfold det. rewrite H10, H20, H21. ring.
Qed.

(** A left inverse of a square matrix is a right inverse. *)
Lemma left_inverse_right_inverse (a b : mat3) :
  dot b a = eye3 -> dot a b = eye3.
Proof.
  intros Hba.
  assert (Hdet : det b * det a = 1)
    by (rewrite <- det_dot, Hba; apply det_eye3).
  assert (Hnz : det a <> 0) by (intros H0; rewrite H0 in Hdet; lra).
  assert (Hb : b = scale (/ det a) (adj a)).
  { rewrite <- (dot_eye3_l (adj a)), <- Hba, dot_assoc, dot_adj.
    rewrite dot_scale_r, dot_eye3_r, scale_scale.
    rewrite Rinv_l by assumption. symmetry; apply scale_1. }
  rewrite Hb, dot_scale_r, dot_adj, scale_scale.
  rewrite Rinv_l by assumption. apply scale_1.
Qed.

Lemma orthogonal_rows (q : mat3) :
  orthogonal q -> dot q (transpose q) = eye3.
Proof. intros H. apply left_inverse_right_inverse. exact H. Qed.

Lemma inner_dot_vec (a : mat3) (u v : vec3) :
  inner (dot_vec a u) (dot_vec a v) = inner u (dot_vec (dot (transpose a) a) v).
Proof. unfold inner, dot_vec, dot, transpose; simpl; ring. Qed.

Lemma dot_vec_eye3 (v : vec3) : dot_vec eye3 v = v.
Proof. entrywise. Qed.

Lemma dot_vec_sub (a : mat3) (u v : vec3) :
  sub (dot_vec a u) (dot_vec a v) = dot_vec a (sub u v).
Proof. entrywise. Qed.

(** A matrix whose transpose is its left inverse keeps scalar products and
    distances. *)
Lemma isometry_inner (t : mat3) (u v : vec3) :
  dot (transpose t) t = eye3 ->
  inner (dot_vec t u) (dot_vec t v) = inner u v.
Proof.
  intros H. rewrite inner_dot_vec, H, dot_vec_eye3. reflexivity.
Qed.

Lemma isometry_distance (t : mat3) (u v : vec3) :
  dot (transpose t) t = eye3 ->
  distance (dot_vec t u) (dot_vec t v) = distance u v.
Proof.
  intros H. unfold distance.
  rewrite dot_vec_sub, isometry_inner by assumption. reflexivity.
Qed.

(** *** The inversion matrix *)

Lemma flip_cases (x : R) :
  (x < 0 /\ Spec.flip x = -1) \/ (0 <= x /\ Spec.flip x = 1).
Proof.
  unfold Spec.flip. destruct (Rlt_dec x 0); [left | right]; split; lra.
Qed.

Lemma flip_square (x : R) : Spec.flip x * Spec.flip x = 1.
Proof. destruct (flip_cases x) as [[_ ->] | [_ ->]]; ring. Qed.

Lemma flip_abs (x : R) : Spec.flip x * x = Rabs x.
Proof.
  destruct (flip_cases x) as [[H ->] | [H ->]].
  - rewrite Rabs_left by assumption. ring.
  - rewrite Rabs_right by lra. ring.
Qed.

(** The loop leaves the identity with [-1] exactly where the diagonal of
    [new_cell] is negative. *)
Lemma inversion_loop_diag (new_cell : mat3) :
  inversion_loop new_cell eye3
  = diag (Spec.flip (m00 new_cell)) (Spec.flip (m11 new_cell))
         (Spec.flip (m22 new_cell)).
Proof.
  unfold inversion_loop, range3, Spec.flip, diag, eye3. cbn [fold_left get].
  replace 0.0 with 0 by lra. replace (-1.0) with (-1) by lra.
  destruct (Rlt_dec (m00 new_cell) 0), (Rlt_dec (m11 new_cell) 0),
    (Rlt_dec (m22 new_cell) 0); reflexivity.
Qed.

(** [transform_cell] in closed form. *)
Lemma transform_cell_closed_form (qr : mat3 -> mat3 * mat3) (c q r : mat3) :
  qr (transpose c) = (q, r) ->
  let s := diag (Spec.flip (m00 r)) (Spec.flip (m11 r)) (Spec.flip (m22 r)) in
  transform_cell qr c = (dot (transpose r) s, dot s (transpose q)).
Proof.
  intros Hqr s. unfold transform_cell. rewrite Hqr.
  rewrite inversion_loop_diag. cbn [transpose m00 m11 m22].
  fold s. f_equal.
  - rewrite transpose_involutive, transpose_dot. unfold s.
    rewrite transpose_diag. reflexivity.
  - rewrite transpose_dot, transpose_involutive. reflexivity.
Qed.

(** *** The example factorisation *)

Lemma example_is_qr :
  is_qr (transpose Examples.cell1) (Examples.q1, Examples.r1).
Proof.
  unfold is_qr, orthogonal, upper_triangular, Examples.cell1, Examples.q1,
    Examples.r1.
  repeat split; try entrywise; cbn; ring.
Defined.

Lemma example_det : det Examples.cell1 <> 0.
Proof. unfold det, Examples.cell1; cbn. lra. Defined.

Lemma flip_pos (x : R) : 0 <= x -> Spec.flip x = 1.
Proof. intros H. unfold Spec.flip. destruct (Rlt_dec x 0); lra. Qed.

Lemma flip_neg (x : R) : x < 0 -> Spec.flip x = -1.
Proof. intros H. unfold Spec.flip. destruct (Rlt_dec x 0); lra. Qed.

Lemma example_transform_cell :
  transform_cell (Examples.qr_of Examples.q1 Examples.r1) Examples.cell1
  = (M3 1 0 0  1 1 0  0 1 1, M3 0 1 0  (-1) 0 0  0 0 (-1)).
Proof.
  rewrite (transform_cell_closed_form _ _ Examples.q1 Examples.r1)
    by reflexivity.
  unfold Examples.r1, Examples.q1. cbn [m00 m11 m22].
  rewrite (flip_pos 1), (flip_neg (-1)) by lra.
  f_equal; entrywise.
Qed.

(** ** The cell normaliser *)

(** C3. The cell returned by [transform_cell] is exactly lower-triangular:
    its entries (0,1), (0,2) and (1,2) are the number zero.  They are the
    cleared entries of the triangular factor of the QR factorisation, each
    multiplied by a sign, so the factor being triangular is all the property
    needs (the cell may even be degenerate). *)
Theorem transform_cell_lower_triangular (qr : mat3 -> mat3 * mat3) (c : mat3) :
  upper_triangular (snd (qr (transpose c))) ->
  let new_cell := fst (transform_cell qr c) in
  get new_cell I0 I1 = 0 /\ get new_cell I0 I2 = 0 /\ get new_cell I1 I2 = 0.
Proof.
  destruct (qr (transpose c)) as [q r] eqn:Hqr.
  intros (H10 & H20 & H21); cbn [snd] in *.
  rewrite (transform_cell_closed_form qr c q r Hqr).
  cbn [fst get dot transpose diag m00 m01 m02 m10 m11 m12 m20 m21 m22].
  rewrite H10, H20, H21. repeat split; ring.
Qed.

Lemma transform_cell_lower_triangular_witness :
  let new_cell :=
    fst (transform_cell (Examples.qr_of Examples.q1 Examples.r1) Examples.cell1) in
  get new_cell I0 I1 = 0 /\ get new_cell I0 I2 = 0 /\ get new_cell I1 I2 = 0.
Proof.
  apply (transform_cell_lower_triangular
           (Examples.qr_of Examples.q1 Examples.r1) Examples.cell1).
  unfold Examples.qr_of, Examples.r1, upper_triangular; cbn.
  repeat split; reflexivity.
Defined.

(** C4. For a non-degenerate cell the three diagonal entries of the cell
    returned by [transform_cell] are strictly positive.  The correction
    matrix is the identity with [-1] at each index whose diagonal entry of the
    triangular factor is negative, every index decided on its own, and the
    resulting diagonal entries are the absolute values of the factor's. *)
Theorem transform_cell_positive_diagonal (qr : mat3 -> mat3 * mat3) (c : mat3) :
  is_qr (transpose c) (qr (transpose c)) ->
  det c <> 0 ->
  let r := snd (qr (transpose c)) in
  let new_cell := fst (transform_cell qr c) in
  inversion_loop (transpose r) eye3
  = diag (if Rlt_dec (get r I0 I0) 0 then -1 else 1)
         (if Rlt_dec (get r I1 I1) 0 then -1 else 1)
         (if Rlt_dec (get r I2 I2) 0 then -1 else 1)
  /\ get new_cell I0 I0 = Rabs (get r I0 I0)
  /\ get new_cell I1 I1 = Rabs (get r I1 I1)
  /\ get new_cell I2 I2 = Rabs (get r I2 I2)
  /\ 0 < get new_cell I0 I0 /\ 0 < get new_cell I1 I1 /\ 0 < get new_cell I2 I2.
Proof.
  destruct (qr (transpose c)) as [q r] eqn:Hqr.
  intros (Hdot & Horth & Hup) Hdet; cbn [snd].
  rewrite (transform_cell_closed_form qr c q r Hqr).
  assert (Hprod : det q * (m00 r * m11 r * m22 r) <> 0).
  { rewrite <- (det_upper_triangular r Hup), <- det_dot, Hdot, det_transpose.
    exact Hdet. }
  assert (H0 : m00 r <> 0) by (intros E; apply Hprod; rewrite E; ring).
  assert (H1 : m11 r <> 0) by (intros E; apply Hprod; rewrite E; ring).
  assert (H2 : m22 r <> 0) by (intros E; apply Hprod; rewrite E; ring).
  destruct Hup as (H10 & H20 & H21).
  split; [ rewrite inversion_loop_diag; reflexivity | ].
  cbn [fst get dot transpose diag m00 m01 m02 m10 m11 m12 m20 m21 m22].
  assert (E0 : m00 r * Spec.flip (m00 r) + m10 r * 0 + m20 r * 0 = Rabs (m00 r))
    by (rewrite <- flip_abs; ring).
  assert (E1 : m01 r * 0 + m11 r * Spec.flip (m11 r) + m21 r * 0 = Rabs (m11 r))
    by (rewrite <- flip_abs; ring).
  assert (E2 : m02 r * 0 + m12 r * 0 + m22 r * Spec.flip (m22 r) = Rabs (m22 r))
    by (rewrite <- flip_abs; ring).
  rewrite E0, E1, E2.
  repeat split; try reflexivity; apply Rabs_pos_lt; assumption.
Qed.

Lemma transform_cell_positive_diagonal_witness :
  let new_cell :=
    fst (transform_cell (Examples.qr_of Examples.q1 Examples.r1) Examples.cell1) in
  0 < get new_cell I0 I0 /\ 0 < get new_cell I1 I1 /\ 0 < get new_cell I2 I2.
Proof.
  apply (transform_cell_positive_diagonal
           (Examples.qr_of Examples.q1 Examples.r1) Examples.cell1
           example_is_qr example_det).
Defined.

(** C5. The transform returned by [transform_cell] is orthogonal: multiplied
    with its transpose, on either side, it gives the identity.  It is the
    transposed orthogonal factor of the QR factorisation composed with a
    diagonal matrix of signs, and applying it keeps scalar products and
    Euclidean distances. *)
Theorem transform_cell_orthogonal (qr : mat3 -> mat3 * mat3) (c : mat3) :
  is_qr (transpose c) (qr (transpose c)) ->
  let q := fst (qr (transpose c)) in
  let r := snd (qr (transpose c)) in
  let transform := snd (transform_cell qr c) in
  dot transform (transpose transform) = eye3
  /\ dot (transpose transform) transform = eye3
  /\ (exists s0 s1 s2 : R,
        (s0 = 1 \/ s0 = -1) /\ (s1 = 1 \/ s1 = -1) /\ (s2 = 1 \/ s2 = -1)
        /\ transform = dot (diag s0 s1 s2) (transpose q))
  /\ (forall u v : vec3,
        inner (dot_vec transform u) (dot_vec transform v) = inner u v)
  /\ (forall u v : vec3,
        distance (dot_vec transform u) (dot_vec transform v) = distance u v).
Proof.
  destruct (qr (transpose c)) as [q r] eqn:Hqr.
  intros (Hdot & Horth & Hup); cbn [fst snd].
  rewrite (transform_cell_closed_form qr c q r Hqr); cbn [snd].
  set (s := diag (Spec.flip (m00 r)) (Spec.flip (m11 r)) (Spec.flip (m22 r))).
  assert (Hss : dot s s = eye3).
  { pose proof (flip_square (m00 r)). pose proof (flip_square (m11 r)).
    pose proof (flip_square (m22 r)). unfold s. entrywise; lra. }
  assert (Hst : transpose s = s) by apply transpose_diag.
  assert (Hrow : dot (dot s (transpose q)) (transpose (dot s (transpose q))) = eye3).
  { rewrite transpose_dot, transpose_involutive, Hst.
    rewrite dot_assoc, <- (dot_assoc (transpose q) q s).
    unfold orthogonal in Horth. rewrite Horth, dot_eye3_l. exact Hss. }
  assert (Hcol : dot (transpose (dot s (transpose q))) (dot s (transpose q)) = eye3).
  { apply left_inverse_right_inverse. exact Hrow. }
  split; [exact Hrow | split; [exact Hcol | split; [ | split]]].
  - exists (Spec.flip (m00 r)), (Spec.flip (m11 r)), (Spec.flip (m22 r)).
    repeat split; try reflexivity.
    + destruct (flip_cases (m00 r)) as [[_ ->] | [_ ->]]; auto.
    + destruct (flip_cases (m11 r)) as [[_ ->] | [_ ->]]; auto.
    + destruct (flip_cases (m22 r)) as [[_ ->] | [_ ->]]; auto.
  - intros u v. apply isometry_inner. exact Hcol.
  - intros u v. apply isometry_distance. exact Hcol.
Qed.

Lemma transform_cell_orthogonal_witness :
  let transform :=
    snd (transform_cell (Examples.qr_of Examples.q1 Examples.r1) Examples.cell1) in
  dot transform (transpose transform) = eye3.
Proof.
  apply (transform_cell_orthogonal
           (Examples.qr_of Examples.q1 Examples.r1) Examples.cell1
           example_is_qr).
Defined.

(** ** Strings and dictionaries *)

Local Open Scope string_scope.

Lemma append_assoc (a b c : string) : (a ++ b) ++ c = a ++ (b ++ c).
Proof. induction a as [| x a IH]; simpl; [reflexivity | now rewrite IH]. Qed.

Lemma append_empty_r (a : string) : a ++ "" = a.
Proof. induction a as [| x a IH]; simpl; [reflexivity | now rewrite IH]. Qed.

Lemma join_cons (line : string) (lines : list string) :
  join (line :: lines) = line ++ join lines.
Proof. reflexivity. Qed.

Module DictFacts.

Lemma get_set_same {V : Type} (d : Dict.t V) (k : string) (v : V) :
  Dict.get (Dict.set d k v) k = Some v.
Proof.
  induction d as [| [k' v'] d IH]; simpl.
  - now rewrite String.eqb_refl.
  - destruct (String.eqb k' k) eqn:E; simpl; rewrite E; [reflexivity | exact IH].
Qed.

Lemma get_set_other {V : Type} (d : Dict.t V) (k k' : string) (v : V) :
  k <> k' -> Dict.get (Dict.set d k v) k' = Dict.get d k'.
Proof.
  intros Hne. induction d as [| [k0 v0] d IH]; simpl.
  - destruct (String.eqb_spec k k'); [contradiction | reflexivity].
  - destruct (String.eqb_spec k0 k); simpl.
    + subst k0. destruct (String.eqb_spec k k'); [contradiction | reflexivity].
    + destruct (String.eqb_spec k0 k'); [reflexivity | exact IH].
Qed.

Lemma get_none_keys {V : Type} (d : Dict.t V) (k : string) :
  Dict.get d k = None <-> ~ In k (Dict.keys d).
Proof.
  induction d as [| [k' v'] d IH]; simpl.
  - tauto.
  - destruct (String.eqb_spec k' k); split; intros H.
    + discriminate.
    + exfalso; apply H; now left.
    + intros [E | Hin]; [contradiction | now apply IH in H].
    + apply IH. intros Hin. apply H. now right.
Qed.

Lemma get_some_keys {V : Type} (d : Dict.t V) (k : string) :
  Dict.get d k <> None <-> In k (Dict.keys d).
Proof.
  rewrite get_none_keys. split.
  - intros H. destruct (in_dec string_dec k (Dict.keys d)); tauto.
  - tauto.
Qed.

Lemma contains_existsb {V : Type} (d : Dict.t V) (k : string) :
  Dict.contains d k = existsb (String.eqb k) (Dict.keys d).
Proof.
  unfold Dict.contains.
  induction d as [| [k' v'] d IH]; simpl; [reflexivity |].
  rewrite (String.eqb_sym k k').
  destruct (String.eqb k' k); [reflexivity | exact IH].
Qed.

Lemma set_absent {V : Type} (d : Dict.t V) (k : string) (v : V) :
  Dict.get d k = None -> Dict.set d k v = (d ++ [(k, v)])%list.
Proof.
  induction d as [| [k' v'] d IH]; simpl; [reflexivity |].
  destruct (String.eqb k' k); [discriminate |].
  intros H. now rewrite IH.
Qed.

Lemma keys_set {V : Type} (d : Dict.t V) (k : string) (v : V) (l : string) :
  In l (Dict.keys (Dict.set d k v)) <-> l = k \/ In l (Dict.keys d).
Proof.
  induction d as [| [k' v'] d IH]; simpl.
  - intuition.
  - destruct (String.eqb_spec k' k); simpl.
    + subst. intuition.
    + rewrite IH. intuition.
Qed.

(** A value is found under the [i]-th key of a dictionary that numbers its
    distinct keys from [a]. *)
Lemma get_combine_seq (ks : list string) (a i : nat) (k : string) :
  NoDup ks -> nth_error ks i = Some k ->
  Dict.get (combine ks (seq a (List.length ks))) k = Some (a + i)%nat.
Proof.
  revert a i. induction ks as [| k0 ks IH]; intros a i Hnd Hnth.
  - destruct i; discriminate.
  - inversion Hnd as [| ? ? Hnotin Hnd']; subst.
    destruct i as [| i]; simpl in *.
    + injection Hnth as ->. rewrite String.eqb_refl. f_equal. lia.
    + destruct (String.eqb_spec k0 k) as [-> | Hne].
      * exfalso. apply Hnotin. eapply nth_error_In; eauto.
      * rewrite (IH (S a) i Hnd' Hnth). f_equal. lia.
Qed.

Lemma keys_combine_seq (ks : list string) (a : nat) :
  Dict.keys (combine ks (seq a (List.length ks))) = ks.
Proof.
  unfold Dict.keys.
  revert a. induction ks as [| k ks IH]; intros a; simpl; [reflexivity |].
  now rewrite IH.
Qed.

End DictFacts.

(** ** The two dictionaries of the serializer *)

Lemma existsb_eqb_In (l : string) (seen : list string) :
  existsb (String.eqb l) seen = true <-> In l seen.
Proof.
  rewrite existsb_exists. split.
  - intros (x & Hin & E). apply String.eqb_eq in E. now subst.
  - intros Hin. exists l. split; [assumption | apply String.eqb_refl].
Qed.

Lemma first_encounter_In (seen labels : list string) (l : string) :
  In l (Spec.first_encounter seen labels) <-> In l labels /\ ~ In l seen.
Proof.
  revert seen. induction labels as [| x rest IH]; intros seen; simpl.
  - tauto.
  - destruct (existsb (String.eqb x) seen) eqn:E.
    + apply existsb_eqb_In in E. rewrite IH. split.
      * tauto.
      * intros [[-> | Hin] Hnot]; [contradiction | tauto].
    + assert (Hx : ~ In x seen).
      { intros Hin. apply existsb_eqb_In in Hin. congruence. }
      simpl. rewrite IH, in_app_iff. simpl. split.
      * intros [<- | [Hin Hnot]]; tauto.
      * intros [[<- | Hin] Hnot]; [tauto |].
        destruct (string_dec x l); [tauto | right; tauto].
Qed.

Lemma first_encounter_NoDup (seen labels : list string) :
  NoDup (Spec.first_encounter seen labels).
Proof.
  revert seen. induction labels as [| x rest IH]; intros seen; simpl.
  - constructor.
  - destruct (existsb (String.eqb x) seen); [apply IH |].
    constructor; [| apply IH].
    rewrite first_encounter_In, in_app_iff. simpl. tauto.
Qed.

(** The loop that builds [kind_name_id_map], started from any dictionary. *)
Lemma kind_name_id_map_fold (sites : list Site) (acc : Dict.t nat) :
  fold_left
    (fun kind_name_id_map site =>
       if negb (Dict.contains kind_name_id_map (kind_name site))
       then Dict.set kind_name_id_map (kind_name site)
                     (Dict.len kind_name_id_map + 1)%nat
       else kind_name_id_map)
    sites acc
  = (acc ++
     let ks := Spec.first_encounter (Dict.keys acc) (map kind_name sites) in
     combine ks (seq (S (List.length acc)) (List.length ks)))%list.
Proof.
  revert acc. induction sites as [| site rest IH]; intros acc; simpl.
  - now rewrite app_nil_r.
  - rewrite DictFacts.contains_existsb.
    destruct (existsb (String.eqb (kind_name site)) (Dict.keys acc)) eqn:E; simpl.
    + apply IH.
    + assert (Hnone : Dict.get acc (kind_name site) = None).
      { pose proof (DictFacts.contains_existsb acc (kind_name site)) as Hc.
        rewrite E in Hc. unfold Dict.contains in Hc.
        destruct (Dict.get acc (kind_name site)); [discriminate | reflexivity]. }
      rewrite (DictFacts.set_absent acc _ _ Hnone), IH.
      unfold Dict.keys, Dict.len. rewrite map_app, length_app. simpl.
      rewrite <- app_assoc. simpl.
      rewrite !Nat.add_1_r. reflexivity.
Qed.

(** The code's [kind_name_id_map] is the KindIndex of the specification. *)
Lemma kind_name_id_map_kind_index (sites : list Site) :
  kind_name_id_map_of sites = Spec.kind_index (map kind_name sites).
Proof.
  unfold kind_name_id_map_of. rewrite kind_name_id_map_fold. reflexivity.
Qed.

Lemma kind_index_keys (labels : list string) :
  Dict.keys (Spec.kind_index labels) = Spec.first_encounter [] labels.
Proof. apply DictFacts.keys_combine_seq. Qed.

Lemma kind_index_In (labels : list string) (l : string) :
  In l (Dict.keys (Spec.kind_index labels)) <-> In l labels.
Proof. rewrite kind_index_keys, first_encounter_In. simpl. tauto. Qed.

Lemma kind_index_get (labels : list string) (i : nat) (l : string) :
  nth_error (Spec.first_encounter [] labels) i = Some l ->
  Dict.get (Spec.kind_index labels) l = Some (i + 1)%nat.
Proof.
  intros H. unfold Spec.kind_index.
  rewrite (DictFacts.get_combine_seq _ 1 i l (first_encounter_NoDup _ _) H).
  f_equal. lia.
Qed.

Lemma kind_index_len (labels : list string) :
  Dict.len (Spec.kind_index labels)
  = List.length (Spec.first_encounter [] labels).
Proof.
  rewrite <- kind_index_keys. unfold Dict.keys, Dict.len.
  now rewrite length_map.
Qed.

(** Every species label that occurs in the sites has an id. *)
Lemma kind_name_id_map_total (sites : list Site) (site : Site) :
  In site sites ->
  Dict.get (kind_name_id_map_of sites) (kind_name site) <> None.
Proof.
  intros Hin. apply (proj2 (DictFacts.get_some_keys _ _)).
  rewrite kind_name_id_map_kind_index, kind_index_In.
  now apply in_map.
Qed.

Lemma kind_mass_dict_fold_keys (kinds : list Kind) (acc : Dict.t R) (l : string) :
  In l (Dict.keys
          (fold_left (fun d kind => Dict.set d (name kind) (mass kind)) kinds acc))
  <-> In l (Dict.keys acc) \/ In l (map name kinds).
Proof.
  revert acc. induction kinds as [| k rest IH]; intros acc; simpl.
  - tauto.
  - rewrite IH, DictFacts.keys_set. intuition.
Qed.

Lemma kind_mass_dict_keys (kinds : list Kind) (l : string) :
  In l (Dict.keys (kind_mass_dict_of kinds)) <-> In l (map name kinds).
Proof.
  unfold kind_mass_dict_of. rewrite kind_mass_dict_fold_keys. simpl. tauto.
Qed.

Lemma kind_mass_dict_fold_other (kinds : list Kind) (acc : Dict.t R) (l : string) :
  ~ In l (map name kinds) ->
  Dict.get (fold_left (fun d kind => Dict.set d (name kind) (mass kind)) kinds acc) l
  = Dict.get acc l.
Proof.
  revert acc. induction kinds as [| k rest IH]; intros acc Hnot; simpl.
  - reflexivity.
  - rewrite IH by (intros H; apply Hnot; now right).
    apply DictFacts.get_set_other. intros E. apply Hnot. now left.
Qed.

(** With unique Kind labels the mass found under a label is the mass of the
    Kind of that label. *)
Lemma kind_mass_dict_get (kinds : list Kind) (k : Kind) :
  NoDup (map name kinds) -> In k kinds ->
  Dict.get (kind_mass_dict_of kinds) (name k) = Some (mass k).
Proof.
  unfold kind_mass_dict_of. generalize (@Dict.empty R) as acc.
  induction kinds as [| k0 rest IH]; intros acc Hnd Hin; simpl in *.
  - contradiction.
  - inversion Hnd as [| ? ? Hnotin Hnd']; subst.
    destruct Hin as [-> | Hin].
    + rewrite kind_mass_dict_fold_other by assumption.
      apply DictFacts.get_set_same.
    + now apply IH.
Qed.

(** ** The serializer *)

Section Serializer.

Variable qr : mat3 -> mat3 * mat3.
Variable np_round : R -> Z -> R.
Variable fmt_20_10f : R -> string.
Variable str_float : R -> string.

Lemma getitem_some {V : Type} (d : Dict.t V) (k : string) :
  Dict.get d k <> None ->
  exists v, Dict.get d k = Some v /\ Dict.getitem d k = Ok v
            /\ forall default, Dict.get_default d k default = v.
Proof.
  unfold Dict.getitem, Dict.get_default.
  destruct (Dict.get d k) as [v |]; [| congruence].
  intros _. exists v. auto.
Qed.

Lemma masses_loop_ok (kind_name_id_map : Dict.t nat) (kind_mass_dict : Dict.t R)
    (names : list string) (filestring : string) :
  Forall (fun l => Dict.get kind_name_id_map l <> None
                   /\ Dict.get kind_mass_dict l <> None) names ->
  masses_loop fmt_20_10f kind_name_id_map kind_mass_dict names filestring
  = Ok (filestring
        ++ join (map (mass_line_of fmt_20_10f kind_name_id_map kind_mass_dict)
                     names)).
Proof.
  intros Hall. revert filestring.
  induction Hall as [| l names [Hid Hmass] _ IH]; intros filestring; simpl.
  - now rewrite append_empty_r.
  - destruct (getitem_some _ _ Hid) as (kind_id & _ & -> & Hd1).
    destruct (getitem_some _ _ Hmass) as (m & _ & -> & Hd2). simpl.
    rewrite IH, append_assoc. unfold mass_line_of. now rewrite Hd1, Hd2.
Qed.

Lemma masses_loop_raises (kind_name_id_map : Dict.t nat)
    (kind_mass_dict : Dict.t R) (names : list string) (filestring : string) :
  Exists (fun l => Dict.get kind_mass_dict l = None) names ->
  masses_loop fmt_20_10f kind_name_id_map kind_mass_dict names filestring
  = Raise KeyError.
Proof.
  revert filestring. induction names as [| l names IH]; intros filestring Hex.
  - inversion Hex.
  - simpl. unfold Dict.getitem.
    destruct (Dict.get kind_name_id_map l); [| reflexivity]. simpl.
    destruct (Dict.get kind_mass_dict l) eqn:E; [| reflexivity]. simpl.
    apply IH. inversion Hex; subst; [congruence | assumption].
Qed.

Lemma atoms_body_ok (atom_style : string) (charge_dict : Dict.t R)
    (kind_name_id_map : Dict.t nat) (site_index : nat) (pos : vec3)
    (site : Site) (filestring : string) :
  atom_style = "atomic" \/ atom_style = "charge" ->
  Dict.get kind_name_id_map (kind_name site) <> None ->
  atoms_body fmt_20_10f str_float atom_style charge_dict kind_name_id_map
    site_index pos site filestring
  = Ok (filestring
        ++ atom_line fmt_20_10f str_float atom_style charge_dict
             kind_name_id_map site_index pos site).
Proof.
  intros Hstyle Hid. unfold atoms_body, atom_line.
  destruct (getitem_some _ _ Hid) as (kind_id & _ & -> & Hd). rewrite Hd.
  replace 0.0%R with 0%R by lra.
  destruct Hstyle as [-> | ->].
  - change (String.eqb "atomic" "atomic") with true.
    change (String.eqb "atomic" "charge") with false.
    cbn [bind]. f_equal. now rewrite !append_assoc.
  - change (String.eqb "charge" "atomic") with false.
    change (String.eqb "charge" "charge") with true.
    cbn [bind]. f_equal. now rewrite !append_assoc.
Qed.

Lemma atoms_loop_ok (atom_style : string) (charge_dict : Dict.t R)
    (kind_name_id_map : Dict.t nat) (zipped : list (vec3 * Site))
    (site_index : nat) (filestring : string) :
  atom_style = "atomic" \/ atom_style = "charge" ->
  Forall (fun ps => Dict.get kind_name_id_map (kind_name (snd ps)) <> None)
         zipped ->
  atoms_loop fmt_20_10f str_float atom_style charge_dict kind_name_id_map
    site_index zipped filestring
  = Ok (filestring
        ++ join (atom_lines fmt_20_10f str_float atom_style charge_dict
                   kind_name_id_map site_index zipped)).
Proof.
  intros Hstyle Hall. revert site_index filestring.
  induction Hall as [| [pos site] zipped Hid _ IH]; intros site_index filestring.
  - simpl. now rewrite append_empty_r.
  - cbn [atoms_loop atom_lines]. rewrite atoms_body_ok by assumption.
    cbn [bind]. rewrite IH, append_assoc. reflexivity.
Qed.

(** The first lines of the file as the code accumulates them. *)
Lemma box_lines_text (c : mat3) (filestring : string) :
  box_lines fmt_20_10f c filestring = filestring ++ box_text fmt_20_10f c.
Proof.
  unfold box_lines, box_text. now rewrite !append_assoc.
Qed.

Lemma supported_style (atom_style : string) :
  existsb (String.eqb atom_style) ["atomic"; "charge"] = true
  <-> atom_style = "atomic" \/ atom_style = "charge".
Proof.
  rewrite existsb_eqb_In. simpl. intuition.
Qed.

(** The sorted labels are the labels of [kind_name_id_map], reordered. *)
Lemma sorted_In (l : string) (names : list string) :
  In l (sorted names) <-> In l names.
Proof.
  unfold sorted. split; intros H.
  - eapply Permutation_in; [| exact H].
    apply Permutation_sym, StringSort.Permuted_sort.
  - eapply Permutation_in; [| exact H]. apply StringSort.Permuted_sort.
Qed.

(** The serializer returns the file and the transform when the atom style is
    one of the two it knows and every site has its Kind. *)
Lemma generate_ok (structure : StructureData) (atom_style : string)
    (charge_dict : option (Dict.t R)) (round_dp : option Z) (docstring : string) :
  atom_style = "atomic" \/ atom_style = "charge" ->
  Forall (fun site => In (kind_name site) (map name (kinds structure)))
         (sites structure) ->
  generate_lammps_structure qr np_round fmt_20_10f str_float structure
    atom_style charge_dict round_dp docstring
  = Ok (file_text qr np_round fmt_20_10f str_float structure atom_style
          charge_dict round_dp docstring,
        snd (transform_cell qr (cell structure))).
Proof.
  intros Hstyle Hkinds.
  unfold generate_lammps_structure, file_text, atom_table, mass_table,
    site_position.
  rewrite (proj2 (supported_style atom_style) Hstyle). cbn [negb].
  cbn [get_ase atoms_cell atoms_positions].
  destruct (transform_cell qr (cell structure)) as [c t]. cbn [fst snd].
  set (id_map := kind_name_id_map_of (sites structure)).
  set (cd := match charge_dict with None => Dict.empty | Some d => d end).
  assert (Hround :
    match round_dp with
    | Some dp =>
        if truthy dp then
          (map_mat (round_value np_round dp) c,
           map (map_vec (round_value np_round dp))
               (map (dot_vec t) (map position (sites structure))))
        else (c, map (dot_vec t) (map position (sites structure)))
    | None => (c, map (dot_vec t) (map position (sites structure)))
    end
    = (rendered_cell np_round round_dp c,
       map (fun site => rendered_position np_round round_dp
                          (dot_vec t (position site)))
           (sites structure))).
  { unfold rendered_cell, rendered_position.
    destruct round_dp as [dp |]; [destruct (truthy dp) |];
      now rewrite !map_map. }
  rewrite Hround. clear Hround.
  rewrite box_lines_text.
  rewrite masses_loop_ok.
  2:{ apply Forall_forall. intros l Hl. apply (proj1 (sorted_In _ _)) in Hl.
      split; [apply (proj2 (DictFacts.get_some_keys _ _)); exact Hl |].
      apply (proj2 (DictFacts.get_some_keys _ _)), kind_mass_dict_keys.
      unfold id_map in Hl.
      rewrite kind_name_id_map_kind_index, kind_index_In in Hl.
      apply in_map_iff in Hl. destruct Hl as (site & <- & Hsite).
      rewrite Forall_forall in Hkinds. now apply Hkinds. }
  cbn [bind].
  rewrite atoms_loop_ok; [| assumption |].
  2:{ apply Forall_forall. intros [pos site] Hin. cbn [snd].
      apply in_combine_r in Hin. now apply kind_name_id_map_total. }
  cbn [bind]. f_equal. f_equal.
  unfold header_text. rewrite !append_assoc. reflexivity.
Qed.

(** A site without its Kind makes the loop over the mass table raise. *)
Lemma generate_raises_key_error (structure : StructureData) (atom_style : string)
    (charge_dict : option (Dict.t R)) (round_dp : option Z) (docstring : string) :
  atom_style = "atomic" \/ atom_style = "charge" ->
  Exists (fun site => ~ In (kind_name site) (map name (kinds structure)))
         (sites structure) ->
  generate_lammps_structure qr np_round fmt_20_10f str_float structure
    atom_style charge_dict round_dp docstring
  = Raise KeyError.
Proof.
  intros Hstyle Hex.
  unfold generate_lammps_structure.
  rewrite (proj2 (supported_style atom_style) Hstyle). cbn [negb].
  destruct (transform_cell qr (atoms_cell (get_ase structure))) as [c t].
  match goal with
  | |- (let '(_, _) := ?rounded in _) = _ => destruct rounded as [c' ps]
  end.
  rewrite masses_loop_raises; [reflexivity |].
  apply Exists_exists in Hex. destruct Hex as (site & Hsite & Hmissing).
  apply Exists_exists. exists (kind_name site). split.
  - apply (proj2 (sorted_In _ _)).
    rewrite kind_name_id_map_kind_index, kind_index_In.
    now apply in_map.
  - apply (proj2 (DictFacts.get_none_keys _ _)).
    now rewrite kind_mass_dict_keys.
Qed.

End Serializer.

(** ** What a call of the serializer can do *)

Lemma kinds_consistent_dec (structure : StructureData) :
  {Forall (fun site => In (kind_name site) (map name (kinds structure)))
          (sites structure)}
  + {Exists (fun site => ~ In (kind_name site) (map name (kinds structure)))
            (sites structure)}.
Proof.
  apply Forall_Exists_dec. intros site. apply in_dec, string_dec.
Qed.

Lemma unsupported_style (atom_style : string) :
  existsb (String.eqb atom_style) ["atomic"; "charge"] = false
  <-> ~ In atom_style ["atomic"; "charge"].
Proof.
  rewrite <- existsb_eqb_In.
  destruct (existsb (String.eqb atom_style) ["atomic"; "charge"]); split;
    congruence.
Qed.

Lemma generate_unsupported (qr : mat3 -> mat3 * mat3) (np_round : R -> Z -> R)
    (fmt_20_10f str_float : R -> string) (structure : StructureData)
    (atom_style : string) (charge_dict : option (Dict.t R))
    (round_dp : option Z) (docstring : string) :
  ~ In atom_style ["atomic"; "charge"] ->
  generate_lammps_structure qr np_round fmt_20_10f str_float structure
    atom_style charge_dict round_dp docstring
  = Raise ValueError.
Proof.
  intros H. unfold generate_lammps_structure.
  now rewrite (proj2 (unsupported_style atom_style) H).
Qed.

(** The three outcomes of a call: the error of an unknown atom style, the
    error of a missing Kind, or the whole file with the transform. *)
Lemma generate_cases (qr : mat3 -> mat3 * mat3) (np_round : R -> Z -> R)
    (fmt_20_10f str_float : R -> string) (structure : StructureData)
    (atom_style : string) (charge_dict : option (Dict.t R))
    (round_dp : option Z) (docstring : string) :
  let call :=
    generate_lammps_structure qr np_round fmt_20_10f str_float structure
      atom_style charge_dict round_dp docstring in
  (~ In atom_style ["atomic"; "charge"] /\ call = Raise ValueError)
  \/ (In atom_style ["atomic"; "charge"]
      /\ Exists (fun site => ~ In (kind_name site) (map name (kinds structure)))
                (sites structure)
      /\ call = Raise KeyError)
  \/ (In atom_style ["atomic"; "charge"]
      /\ Forall (fun site => In (kind_name site) (map name (kinds structure)))
                (sites structure)
      /\ call = Ok (file_text qr np_round fmt_20_10f str_float structure
                      atom_style charge_dict round_dp docstring,
                    snd (transform_cell qr (cell structure)))).
Proof.
  intros call. unfold call.
  destruct (in_dec string_dec atom_style ["atomic"; "charge"]) as [Hin | Hout].
  - assert (Hstyle : atom_style = "atomic" \/ atom_style = "charge")
      by (simpl in Hin; intuition).
    destruct (kinds_consistent_dec structure) as [Hall | Hex].
    + right; right. split; [assumption | split; [assumption |]].
      now apply generate_ok.
    + right; left. split; [assumption | split; [assumption |]].
      now apply generate_raises_key_error.
  - left. split; [assumption |]. now apply generate_unsupported.
Qed.

(** ** The claims on the serializer *)

(** C1 (amended). The serializer raises the error of an unknown mode, and
    returns no text, if and only if the atom style is neither ["atomic"] nor
    ["charge"].  The unknown styles ["full"] and ["charged"] raise it;
    ["atomic"] and ["charge"] never do. *)
Theorem unknown_atom_style_raises (qr : mat3 -> mat3 * mat3)
    (np_round : R -> Z -> R) (fmt_20_10f str_float : R -> string)
    (structure : StructureData) (charge_dict : option (Dict.t R))
    (round_dp : option Z) (docstring : string) :
  let call atom_style :=
    generate_lammps_structure qr np_round fmt_20_10f str_float structure
      atom_style charge_dict round_dp docstring in
  (forall atom_style,
     call atom_style = Raise ValueError
     <-> ~ In atom_style ["atomic"; "charge"])
  /\ call "full" = Raise ValueError
  /\ call "charged" = Raise ValueError
  /\ call "atomic" <> Raise ValueError
  /\ call "charge" <> Raise ValueError.
Proof.
  intros call.
  assert (Hiff : forall atom_style,
            call atom_style = Raise ValueError
            <-> ~ In atom_style ["atomic"; "charge"]).
  { intros atom_style. unfold call. split.
    - intros Hcall Hin.
      destruct (generate_cases qr np_round fmt_20_10f str_float structure
                  atom_style charge_dict round_dp docstring)
        as [[Hout _] | [(_ & _ & E) | (_ & _ & E)]];
        [contradiction | congruence | congruence].
    - apply generate_unsupported. }
  split; [exact Hiff |].
  split; [| split; [| split]].
  - apply (proj2 (Hiff "full")). simpl. intros [E | [E | []]]; discriminate.
  - apply (proj2 (Hiff "charged")). simpl.
    intros [E | [E | []]]; discriminate.
  - intros E. apply (proj1 (Hiff "atomic")) in E. apply E. simpl. auto.
  - intros E. apply (proj1 (Hiff "charge")) in E. apply E. simpl. auto.
Qed.

(** C1, as the specification states it, fails: the specification's second
    mode ["charged"] is not a style the serializer knows, and is refused. *)
Lemma charged_is_refused :
  In "charged" Spec.supported_modes
  /\ generate_lammps_structure (Examples.qr_of Examples.q1 Examples.r1)
       Examples.no_round Examples.fmt_any Examples.fmt_any Examples.fe2o
       "charged" None None "generated by aiida_lammps"
     = Raise ValueError.
Proof.
  split; [simpl; auto | reflexivity].
Qed.

(** C6, at the precision it misses.  A rounding precision of zero is a false
    value for [if round_dp:], so the call renders the cell and the positions
    exactly as a call without a precision does: nothing is rounded. *)
Theorem round_dp_zero_is_ignored (qr : mat3 -> mat3 * mat3)
    (np_round : R -> Z -> R) (fmt_20_10f str_float : R -> string)
    (structure : StructureData) (atom_style : string)
    (charge_dict : option (Dict.t R)) (docstring : string) :
  generate_lammps_structure qr np_round fmt_20_10f str_float structure
    atom_style charge_dict (Some 0%Z) docstring
  = generate_lammps_structure qr np_round fmt_20_10f str_float structure
      atom_style charge_dict None docstring
  /\ (forall c : mat3, rendered_cell np_round (Some 0%Z) c = c)
  /\ (forall p : vec3, rendered_position np_round (Some 0%Z) p = p).
Proof.
  repeat split.
Qed.

(** For every other precision the cell and the positions are rounded, and by
    the same function. *)
Lemma round_dp_nonzero_rounds (np_round : R -> Z -> R) (dp : Z) :
  dp <> 0%Z ->
  (forall c : mat3,
     rendered_cell np_round (Some dp) c = map_mat (round_value np_round dp) c)
  /\ (forall p : vec3,
        rendered_position np_round (Some dp) p
        = map_vec (round_value np_round dp) p).
Proof.
  intros Hdp. unfold rendered_cell, rendered_position, truthy.
  apply Z.eqb_neq in Hdp. rewrite Hdp. split; reflexivity.
Qed.

(** C7. A structure with a site whose species label is no label of its
    Kinds gets no text: with an atom style the serializer knows the call
    raises the error of the failed lookup of the mass; with any other style
    the check of the style has raised before. *)
Theorem missing_kind_raises (qr : mat3 -> mat3 * mat3)
    (np_round : R -> Z -> R) (fmt_20_10f str_float : R -> string)
    (structure : StructureData) (atom_style : string)
    (charge_dict : option (Dict.t R)) (round_dp : option Z)
    (docstring : string) :
  (exists site, In site (sites structure)
                /\ ~ In (kind_name site) (map name (kinds structure))) ->
  let call :=
    generate_lammps_structure qr np_round fmt_20_10f str_float structure
      atom_style charge_dict round_dp docstring in
  (In atom_style ["atomic"; "charge"] -> call = Raise KeyError)
  /\ (~ In atom_style ["atomic"; "charge"] -> call = Raise ValueError)
  /\ (forall out, call <> Ok out).
Proof.
  intros Hmissing call.
  assert (Hex : Exists (fun site => ~ In (kind_name site)
                                         (map name (kinds structure)))
                       (sites structure)) by (now apply Exists_exists).
  assert (Hk : In atom_style ["atomic"; "charge"] -> call = Raise KeyError).
  { intros Hin. apply generate_raises_key_error; [| assumption].
    simpl in Hin. intuition. }
  assert (Hv : ~ In atom_style ["atomic"; "charge"] -> call = Raise ValueError)
    by apply generate_unsupported.
  split; [exact Hk | split; [exact Hv |]].
  intros out E.
  destruct (in_dec string_dec atom_style ["atomic"; "charge"]) as [Hin | Hout].
  - rewrite (Hk Hin) in E. discriminate.
  - rewrite (Hv Hout) in E. discriminate.
Qed.

Lemma missing_kind_raises_witness :
  generate_lammps_structure (Examples.qr_of Examples.q1 Examples.r1)
    Examples.no_round Examples.fmt_any Examples.fmt_any Examples.no_oxygen
    "atomic" None None "generated by aiida_lammps"
  = Raise KeyError.
Proof.
  apply (missing_kind_raises (Examples.qr_of Examples.q1 Examples.r1)
           Examples.no_round Examples.fmt_any Examples.fmt_any
           Examples.no_oxygen "atomic" None None "generated by aiida_lammps").
  - exists {| kind_name := "O"; position := Examples.origin |}.
    split; [simpl; auto |].
    simpl. intros [E | []]. discriminate.
  - simpl. auto.
Defined.

(** *** The lines of the atom table *)

Lemma atom_lines_length (fmt_20_10f str_float : R -> string)
    (atom_style : string) (charge_dict : Dict.t R)
    (kind_name_id_map : Dict.t nat) (zipped : list (vec3 * Site))
    (site_index : nat) :
  List.length (atom_lines fmt_20_10f str_float atom_style charge_dict
                 kind_name_id_map site_index zipped)
  = List.length zipped.
Proof.
  revert site_index.
  induction zipped as [| [pos site] zipped IH]; intros site_index; simpl;
    [reflexivity | now rewrite IH].
Qed.

Lemma atom_lines_nth (fmt_20_10f str_float : R -> string)
    (atom_style : string) (charge_dict : Dict.t R)
    (kind_name_id_map : Dict.t nat) (zipped : list (vec3 * Site))
    (site_index i : nat) (pos : vec3) (site : Site) :
  nth_error zipped i = Some (pos, site) ->
  nth_error (atom_lines fmt_20_10f str_float atom_style charge_dict
               kind_name_id_map site_index zipped) i
  = Some (atom_line fmt_20_10f str_float atom_style charge_dict
            kind_name_id_map (site_index + i) pos site).
Proof.
  revert site_index i.
  induction zipped as [| [pos0 site0] zipped IH]; intros site_index i Hnth.
  - destruct i; discriminate.
  - destruct i as [| i]; simpl in *.
    + injection Hnth as -> ->. now rewrite Nat.add_0_r.
    + rewrite (IH (S site_index) i Hnth). do 2 f_equal. lia.
Qed.

Lemma combine_map_nth {A B : Type} (f : A -> B) (l : list A) (i : nat) (x : A) :
  nth_error l i = Some x ->
  nth_error (combine (map f l) l) i = Some (f x, x).
Proof.
  revert i. induction l as [| y l IH]; intros i Hnth.
  - destruct i; discriminate.
  - destruct i as [| i]; simpl in *.
    + now injection Hnth as ->.
    + now apply IH.
Qed.

Lemma combine_map_length {A B : Type} (f : A -> B) (l : list A) :
  List.length (combine (map f l) l) = List.length l.
Proof.
  rewrite length_combine, length_map. apply Nat.min_id.
Qed.

(** The start of an atom line: the 1-based index of the site and the id of
    its species. *)
Lemma atom_line_fields (fmt_20_10f str_float : R -> string)
    (atom_style : string) (charge_dict : Dict.t R)
    (kind_name_id_map : Dict.t nat) (site_index kind_id : nat) (pos : vec3)
    (site : Site) :
  Dict.get kind_name_id_map (kind_name site) = Some kind_id ->
  atom_line fmt_20_10f str_float atom_style charge_dict kind_name_id_map
    site_index pos site
  = str_int (site_index + 1) ++ " " ++ str_int kind_id
    ++ (if String.eqb atom_style "atomic" then ""
        else " " ++ str_float
                      (Dict.get_default charge_dict (kind_name site) 0%R))
    ++ position_fields fmt_20_10f pos.
Proof.
  intros Hget. unfold atom_line.
  assert (Hid : Dict.get_default kind_name_id_map (kind_name site) 0%nat
                = kind_id) by (unfold Dict.get_default; now rewrite Hget).
  rewrite Hid.
  destruct (String.eqb atom_style "atomic").
  - reflexivity.
  - now rewrite !append_assoc.
Qed.

(** C10. The header of the file declares the number of Sites as the atom
    count and the number of entries of the KindIndex, which is the number of
    distinct species labels of the Sites, as the atom-type count. *)
Theorem header_counts (qr : mat3 -> mat3 * mat3) (np_round : R -> Z -> R)
    (fmt_20_10f str_float : R -> string) (structure : StructureData)
    (atom_style : string) (charge_dict : option (Dict.t R))
    (round_dp : option Z) (docstring : string) :
  atom_style = "atomic" \/ atom_style = "charge" ->
  Forall (fun site => In (kind_name site) (map name (kinds structure)))
         (sites structure) ->
  let kind_name_id_map := kind_name_id_map_of (sites structure) in
  (exists rest : string,
     generate_lammps_structure qr np_round fmt_20_10f str_float structure
       atom_style charge_dict round_dp docstring
     = Ok ("# " ++ docstring ++ nl ++ nl
           ++ str_int (List.length (sites structure)) ++ " atoms" ++ nl
           ++ str_int (Dict.len kind_name_id_map) ++ " atom types" ++ nl ++ nl
           ++ rest,
           snd (transform_cell qr (cell structure))))
  /\ Dict.len kind_name_id_map
     = List.length (Spec.first_encounter [] (map kind_name (sites structure))).
Proof.
  intros Hstyle Hkinds kind_name_id_map. split.
  - rewrite generate_ok by assumption.
    unfold file_text, header_text. fold kind_name_id_map.
    exists (box_text fmt_20_10f
              (rendered_cell np_round round_dp
                 (fst (transform_cell qr (cell structure))))
            ++ "Masses" ++ nl ++ nl
            ++ join (mass_table fmt_20_10f structure) ++ nl
            ++ "Atoms" ++ nl ++ nl
            ++ join (atom_table qr np_round fmt_20_10f str_float structure
                       atom_style charge_dict round_dp)).
    rewrite !append_assoc. reflexivity.
  - unfold kind_name_id_map.
    rewrite kind_name_id_map_kind_index. apply kind_index_len.
Qed.

Lemma header_counts_witness :
  exists rest : string,
    generate_lammps_structure (Examples.qr_of Examples.q1 Examples.r1)
      Examples.no_round Examples.fmt_any Examples.fmt_any Examples.fe2o
      "atomic" None None "generated by aiida_lammps"
    = Ok ("# generated by aiida_lammps" ++ nl ++ nl
          ++ "3 atoms" ++ nl
          ++ "2 atom types" ++ nl ++ nl
          ++ rest,
          snd (transform_cell (Examples.qr_of Examples.q1 Examples.r1)
                 (cell Examples.fe2o))).
Proof.
  refine (proj1 (header_counts (Examples.qr_of Examples.q1 Examples.r1)
           Examples.no_round Examples.fmt_any Examples.fmt_any Examples.fe2o
           "atomic" None None "generated by aiida_lammps" _ _)).
  - left; reflexivity.
  - repeat (first [apply Forall_nil | apply Forall_cons]); simpl; auto.
Defined.

(** C8. The KindIndex built by the serializer numbers the species labels
    from 1 in the order of their first occurrence among the Sites; the atom
    table has one line per Site, in the order of the Sites, and the line of
    the Site at 0-based place [i] starts with [i + 1] and the id of the
    Site's label in the KindIndex.  The KindIndex depends on nothing but
    the sequence of the Sites' labels, so serializing again assigns the same
    ids. *)
Theorem kind_ids_first_encounter (qr : mat3 -> mat3 * mat3)
    (np_round : R -> Z -> R) (fmt_20_10f str_float : R -> string)
    (structure : StructureData) (atom_style : string)
    (charge_dict : option (Dict.t R)) (round_dp : option Z)
    (docstring : string) :
  atom_style = "atomic" \/ atom_style = "charge" ->
  Forall (fun site => In (kind_name site) (map name (kinds structure)))
         (sites structure) ->
  let labels := map kind_name (sites structure) in
  let kind_name_id_map := kind_name_id_map_of (sites structure) in
  let table :=
    atom_table qr np_round fmt_20_10f str_float structure atom_style
      charge_dict round_dp in
  kind_name_id_map = Spec.kind_index labels
  /\ Dict.keys kind_name_id_map = Spec.first_encounter [] labels
  /\ (forall i l, nth_error (Spec.first_encounter [] labels) i = Some l ->
                  Dict.get kind_name_id_map l = Some (i + 1)%nat)
  /\ (exists before : string,
        generate_lammps_structure qr np_round fmt_20_10f str_float structure
          atom_style charge_dict round_dp docstring
        = Ok (before ++ "Atoms" ++ nl ++ nl ++ join table,
              snd (transform_cell qr (cell structure))))
  /\ List.length table = List.length (sites structure)
  /\ (forall i site,
        nth_error (sites structure) i = Some site ->
        exists kind_id : nat,
          Dict.get kind_name_id_map (kind_name site) = Some kind_id
          /\ nth_error table i
             = Some (str_int (i + 1) ++ " " ++ str_int kind_id
                     ++ (if String.eqb atom_style "atomic" then ""
                         else " " ++ str_float
                                (Dict.get_default
                                   (match charge_dict with
                                    | None => Dict.empty
                                    | Some d => d
                                    end) (kind_name site) 0%R))
                     ++ position_fields fmt_20_10f
                          (site_position qr np_round structure round_dp site)))
  /\ (forall other : StructureData,
        map kind_name (sites other) = labels ->
        kind_name_id_map_of (sites other) = kind_name_id_map).
Proof.
  intros Hstyle Hkinds labels kind_name_id_map table.
  assert (Hidx : kind_name_id_map = Spec.kind_index labels)
    by apply kind_name_id_map_kind_index.
  split; [exact Hidx |].
  split; [rewrite Hidx; apply kind_index_keys |].
  split; [intros i l Hnth; rewrite Hidx; now apply kind_index_get |].
  split; [| split; [| split]].
  - rewrite generate_ok by assumption. unfold file_text. fold table.
    exists (header_text docstring (List.length (sites structure))
              (Dict.len (kind_name_id_map_of (sites structure)))
            ++ box_text fmt_20_10f
                 (rendered_cell np_round round_dp
                    (fst (transform_cell qr (cell structure))))
            ++ "Masses" ++ nl ++ nl
            ++ join (mass_table fmt_20_10f structure) ++ nl).
    rewrite !append_assoc. reflexivity.
  - unfold table, atom_table.
    rewrite atom_lines_length. apply combine_map_length.
  - intros i site Hnth.
    assert (Hin : In site (sites structure)) by (eapply nth_error_In; eauto).
    destruct (Dict.get kind_name_id_map (kind_name site)) as [kind_id |] eqn:Hget.
    2:{ exfalso. now apply (kind_name_id_map_total (sites structure) site). }
    exists kind_id. split; [reflexivity |].
    unfold table, atom_table.
    rewrite (atom_lines_nth _ _ _ _ _ _ 0 i
               (site_position qr np_round structure round_dp site) site)
      by (now apply combine_map_nth).
    rewrite (atom_line_fields _ _ _ _ _ _ kind_id) by exact Hget.
    reflexivity.
  - intros other Hlabels. rewrite Hidx, kind_name_id_map_kind_index.
    now rewrite Hlabels.
Qed.

Lemma kind_ids_first_encounter_witness :
  kind_name_id_map_of (sites Examples.fe2o) = [("O", 1%nat); ("Fe", 2%nat)]
  /\ kind_name_id_map_of (sites Examples.fe2o)
     = Spec.kind_index (map kind_name (sites Examples.fe2o)).
Proof.
  split; [reflexivity |].
  refine (proj1 (kind_ids_first_encounter
           (Examples.qr_of Examples.q1 Examples.r1)
           Examples.no_round Examples.fmt_any Examples.fmt_any Examples.fe2o
           "charge" None None "generated by aiida_lammps" _ _)).
  - right; reflexivity.
  - repeat (first [apply Forall_nil | apply Forall_cons]); simpl; auto.
Defined.

(** *** The lines of the mass table *)

Lemma sorted_Sorted (names : list string) :
  Sorted (fun a b => String.leb a b = true) (sorted names).
Proof. exact (StringSort.Sorted_sort names). Qed.

Lemma sorted_Permutation (names : list string) :
  Permutation names (sorted names).
Proof. exact (StringSort.Permuted_sort names). Qed.

Lemma kind_name_id_map_NoDup (sites : list Site) :
  NoDup (Dict.keys (kind_name_id_map_of sites)).
Proof.
  rewrite kind_name_id_map_kind_index, kind_index_keys.
  apply first_encounter_NoDup.
Qed.

(** C9 (amended). The mass table stands between the box and the atom
    table; its lines follow the species labels of the KindIndex sorted
    lexicographically, whatever the order of their first occurrence, with
    one line per label of the KindIndex (a label that occurs among the
    Sites), carrying the id of the label and the mass of its Kind. *)
Theorem mass_table_sorted (qr : mat3 -> mat3 * mat3) (np_round : R -> Z -> R)
    (fmt_20_10f str_float : R -> string) (structure : StructureData)
    (atom_style : string) (charge_dict : option (Dict.t R))
    (round_dp : option Z) (docstring : string) :
  atom_style = "atomic" \/ atom_style = "charge" ->
  Forall (fun site => In (kind_name site) (map name (kinds structure)))
         (sites structure) ->
  let kind_name_id_map := kind_name_id_map_of (sites structure) in
  let kind_mass_dict := kind_mass_dict_of (kinds structure) in
  let names := sorted (Dict.keys kind_name_id_map) in
  let table := mass_table fmt_20_10f structure in
  (exists before after : string,
     generate_lammps_structure qr np_round fmt_20_10f str_float structure
       atom_style charge_dict round_dp docstring
     = Ok (before ++ "Masses" ++ nl ++ nl ++ join table ++ nl
           ++ "Atoms" ++ nl ++ nl ++ after,
           snd (transform_cell qr (cell structure))))
  /\ Sorted (fun a b => String.leb a b = true) names
  /\ Permutation (Dict.keys kind_name_id_map) names
  /\ NoDup names
  /\ (forall l, In l names
                <-> exists site, In site (sites structure) /\ kind_name site = l)
  /\ List.length table = Dict.len kind_name_id_map
  /\ (forall i l,
        nth_error names i = Some l ->
        exists (kind_id : nat) (m : R),
          Dict.get kind_name_id_map l = Some kind_id
          /\ Dict.get kind_mass_dict l = Some m
          /\ nth_error table i
             = Some (str_int kind_id ++ " " ++ fmt_20_10f m ++ " " ++ nl))
  /\ (NoDup (map name (kinds structure)) ->
      forall kind, In kind (kinds structure) ->
                   Dict.get kind_mass_dict (name kind) = Some (mass kind)).
Proof.
  intros Hstyle Hkinds kind_name_id_map kind_mass_dict names table.
  assert (Hperm : Permutation (Dict.keys kind_name_id_map) names)
    by apply sorted_Permutation.
  assert (Hnames : forall l, In l names
            <-> exists site, In site (sites structure) /\ kind_name site = l).
  { intros l. unfold names. rewrite sorted_In. unfold kind_name_id_map.
    rewrite kind_name_id_map_kind_index, kind_index_In, in_map_iff.
    split; intros (site & H1 & H2); exists site; auto. }
  split; [| split; [| split; [| split; [| split; [| split; [| split]]]]]].
  - rewrite generate_ok by assumption. unfold file_text. fold table.
    exists (header_text docstring (List.length (sites structure))
              (Dict.len (kind_name_id_map_of (sites structure)))
            ++ box_text fmt_20_10f
                 (rendered_cell np_round round_dp
                    (fst (transform_cell qr (cell structure))))),
      (join (atom_table qr np_round fmt_20_10f str_float structure atom_style
               charge_dict round_dp)).
    rewrite append_assoc. reflexivity.
  - apply sorted_Sorted.
  - exact Hperm.
  - eapply Permutation_NoDup; [exact Hperm |]. apply kind_name_id_map_NoDup.
  - exact Hnames.
  - unfold table, mass_table. rewrite length_map. fold kind_name_id_map names.
    rewrite <- (Permutation_length Hperm). unfold Dict.keys, Dict.len.
    apply length_map.
  - intros i l Hnth.
    assert (Hin : In l names) by (eapply nth_error_In; eauto).
    destruct (proj1 (Hnames l) Hin) as (site & Hsite & <-).
    assert (Hid : Dict.get kind_name_id_map (kind_name site) <> None)
      by (now apply kind_name_id_map_total).
    assert (Hmass : Dict.get kind_mass_dict (kind_name site) <> None).
    { apply (proj2 (DictFacts.get_some_keys _ _)), kind_mass_dict_keys.
      rewrite Forall_forall in Hkinds. now apply Hkinds. }
    destruct (getitem_some _ _ Hid) as (kind_id & Eid & _ & Hd1).
    destruct (getitem_some _ _ Hmass) as (m & Em & _ & Hd2).
    exists kind_id, m. split; [exact Eid | split; [exact Em |]].
    unfold table, mass_table. fold kind_name_id_map kind_mass_dict names.
    rewrite nth_error_map, Hnth. cbn [option_map].
    unfold mass_line_of, mass_line. now rewrite Hd1, Hd2.
  - intros Hnd kind Hin. now apply kind_mass_dict_get.
Qed.

Lemma mass_table_sorted_witness :
  sorted (Dict.keys (kind_name_id_map_of (sites Examples.fe2o))) = ["Fe"; "O"]
  /\ Sorted (fun a b => String.leb a b = true)
            (sorted (Dict.keys (kind_name_id_map_of (sites Examples.fe2o)))).
Proof.
  split; [reflexivity |].
  refine (proj1 (proj2 (mass_table_sorted
           (Examples.qr_of Examples.q1 Examples.r1)
           Examples.no_round Examples.fmt_any Examples.fmt_any Examples.fe2o
           "atomic" None None "generated by aiida_lammps" _ _))).
  - left; reflexivity.
  - repeat (first [apply Forall_nil | apply Forall_cons]); simpl; auto.
Defined.

(** C9, as the specification states it, fails at a Kind that no Site uses:
    the structure has two Kinds and its mass table one line. *)
Lemma spare_kind_has_no_mass_line :
  List.length (kinds Examples.spare_kind) = 2%nat
  /\ mass_table Examples.fmt_any Examples.spare_kind
     = [str_int 1 ++ " " ++ Examples.fmt_any 15.999%R ++ " " ++ nl]
  /\ generate_lammps_structure (Examples.qr_of Examples.q1 Examples.r1)
       Examples.no_round Examples.fmt_any Examples.fmt_any Examples.spare_kind
       "atomic" None None "generated by aiida_lammps"
     = Ok (file_text (Examples.qr_of Examples.q1 Examples.r1)
             Examples.no_round Examples.fmt_any Examples.fmt_any
             Examples.spare_kind "atomic" None None "generated by aiida_lammps",
           snd (transform_cell (Examples.qr_of Examples.q1 Examples.r1)
                  (cell Examples.spare_kind))).
Proof.
  split; [reflexivity | split; [reflexivity |]].
  apply generate_ok.
  - left; reflexivity.
  - repeat (first [apply Forall_nil | apply Forall_cons]); simpl; auto.
Qed.

(** ** The transform and the cell *)

Lemma row_dot_transpose (a t : mat3) (i : idx) :
  row (dot a (transpose t)) i = dot_vec t (row a i).
Proof. destruct i; entrywise. Qed.

Lemma generate_returns (qr : mat3 -> mat3 * mat3) (np_round : R -> Z -> R)
    (fmt_20_10f str_float : R -> string) (structure : StructureData)
    (atom_style : string) (charge_dict : option (Dict.t R))
    (round_dp : option Z) (docstring text : string) (t : mat3) :
  generate_lammps_structure qr np_round fmt_20_10f str_float structure
    atom_style charge_dict round_dp docstring = Ok (text, t) ->
  t = snd (transform_cell qr (cell structure))
  /\ text = file_text qr np_round fmt_20_10f str_float structure atom_style
              charge_dict round_dp docstring.
Proof.
  intros Hcall.
  destruct (generate_cases qr np_round fmt_20_10f str_float structure
              atom_style charge_dict round_dp docstring)
    as [[_ E] | [(_ & _ & E) | (_ & _ & E)]];
    rewrite E in Hcall; try discriminate.
  injection Hcall as <- <-. split; reflexivity.
Qed.

(** C2 (amended). With [q], [r] the factors of the QR factorisation of the
    transposed cell and [s] the diagonal matrix of signs, [transform_cell]
    returns the cell [transpose (s r)], which is [transpose r] with its
    columns scaled by [s], and the transform [transpose (q (transpose s))],
    which is [s (transpose q)].  The returned cell is the original cell
    multiplied on the right by the transposed transform: every lattice
    vector, a row of the cell, is mapped by the transform as a matrix-vector
    product.  The serializer returns this transform and maps the position of
    every site by the same product. *)
Theorem transform_cell_maps_cell (qr : mat3 -> mat3 * mat3) (c : mat3) :
  is_qr (transpose c) (qr (transpose c)) ->
  let q := fst (qr (transpose c)) in
  let r := snd (qr (transpose c)) in
  let s := inversion_loop (transpose r) eye3 in
  let new_cell := fst (transform_cell qr c) in
  let transform := snd (transform_cell qr c) in
  new_cell = transpose (dot s r)
  /\ new_cell = dot (transpose r) s
  /\ transform = transpose (dot q (transpose s))
  /\ transform = dot s (transpose q)
  /\ new_cell = dot c (transpose transform)
  /\ transpose new_cell = dot transform (transpose c)
  /\ (forall i : idx, row new_cell i = dot_vec transform (row c i))
  /\ (forall (np_round : R -> Z -> R) (fmt_20_10f str_float : R -> string)
             (structure : StructureData) (atom_style : string)
             (charge_dict : option (Dict.t R)) (round_dp : option Z)
             (docstring text : string) (t : mat3),
        cell structure = c ->
        generate_lammps_structure qr np_round fmt_20_10f str_float structure
          atom_style charge_dict round_dp docstring = Ok (text, t) ->
        t = transform
        /\ text = file_text qr np_round fmt_20_10f str_float structure
                    atom_style charge_dict round_dp docstring
        /\ forall site : Site,
             site_position qr np_round structure round_dp site
             = rendered_position np_round round_dp
                 (dot_vec transform (position site))).
Proof.
  destruct (qr (transpose c)) as [q r] eqn:Hqr.
  intros (Hdot & Horth & Hup). cbn [fst snd].
  pose proof (transform_cell_closed_form qr c q r Hqr) as Hclosed.
  cbv zeta in Hclosed.
  rewrite inversion_loop_diag. cbn [transpose m00 m11 m22].
  set (s := diag (Spec.flip (m00 r)) (Spec.flip (m11 r)) (Spec.flip (m22 r)))
    in *.
  assert (Hst : transpose s = s) by apply transpose_diag.
  assert (Hnew : fst (transform_cell qr c) = dot (transpose r) s)
    by (now rewrite Hclosed).
  assert (Htr : snd (transform_cell qr c) = dot s (transpose q))
    by (now rewrite Hclosed).
  assert (Hright : fst (transform_cell qr c)
                   = dot c (transpose (snd (transform_cell qr c)))).
  { rewrite Hnew, Htr, transpose_dot, transpose_involutive, Hst.
    rewrite <- dot_assoc. f_equal.
    rewrite <- (transpose_involutive c), <- Hdot, transpose_dot, dot_assoc.
    unfold orthogonal in Horth. now rewrite Horth, dot_eye3_r. }
  split; [now rewrite Hnew, transpose_dot, Hst |].
  split; [exact Hnew |].
  split; [now rewrite Htr, transpose_dot, transpose_involutive |].
  split; [exact Htr |].
  split; [exact Hright |].
  split; [rewrite Hright at 1;
          now rewrite transpose_dot, transpose_involutive |].
  split; [intros i; rewrite Hright at 1; apply row_dot_transpose |].
  intros np_round fmt_20_10f str_float structure atom_style charge_dict
    round_dp docstring text t Hcell Hcall.
  apply generate_returns in Hcall. destruct Hcall as [-> ->].
  rewrite Hcell. split; [reflexivity | split; [reflexivity |]].
  intros site. unfold site_position. now rewrite Hcell.
Qed.

Lemma transform_cell_maps_cell_witness :
  let new_cell :=
    fst (transform_cell (Examples.qr_of Examples.q1 Examples.r1) Examples.cell1) in
  let transform :=
    snd (transform_cell (Examples.qr_of Examples.q1 Examples.r1) Examples.cell1) in
  new_cell = dot Examples.cell1 (transpose transform).
Proof.
  refine (proj1 (proj2 (proj2 (proj2 (proj2
            (transform_cell_maps_cell
               (Examples.qr_of Examples.q1 Examples.r1) Examples.cell1
               example_is_qr)))))).
Defined.

(** C2, as the specification states it, fails at the example cell: the
    returned cell is not the transform multiplied with the original cell, it
    is not the transposed triangular factor with its rows scaled, and the
    transform is not [q (transpose s)]. *)
Lemma transform_is_not_a_left_factor :
  is_qr (transpose Examples.cell1) (Examples.q1, Examples.r1)
  /\ let s := inversion_loop (transpose Examples.r1) eye3 in
     let new_cell :=
       fst (transform_cell (Examples.qr_of Examples.q1 Examples.r1)
              Examples.cell1) in
     let transform :=
       snd (transform_cell (Examples.qr_of Examples.q1 Examples.r1)
              Examples.cell1) in
     new_cell = M3 1 0 0  1 1 0  0 1 1
     /\ transform = M3 0 1 0  (-1) 0 0  0 0 (-1)
     /\ new_cell <> dot transform Examples.cell1
     /\ new_cell <> dot s (transpose Examples.r1)
     /\ transform <> dot Examples.q1 (transpose s).
Proof.
  split; [exact example_is_qr |].
  rewrite example_transform_cell, inversion_loop_diag.
  unfold Examples.r1, Examples.q1, Examples.cell1.
  cbn [fst snd transpose m00 m11 m22].
  rewrite (flip_pos 1), (flip_neg (-1)) by lra.
  split; [reflexivity | split; [reflexivity |]].
  split; [| split]; intros H.
  - apply (f_equal m00) in H.
    cbn [dot m00 m01 m02 m10 m11 m12 m20 m21 m22] in H. lra.
  - apply (f_equal m21) in H.
    cbn [dot diag transpose m00 m01 m02 m10 m11 m12 m20 m21 m22] in H. lra.
  - apply (f_equal m01) in H.
    cbn [dot diag transpose m00 m01 m02 m10 m11 m12 m20 m21 m22] in H. lra.
Qed.

(** ** More on the cell normaliser *)

Local Open Scope R_scope.

Lemma adj_dot (a : mat3) : dot (adj a) a = scale (det a) eye3.
Proof. unfold det. entrywise. Qed.

Lemma dot_scale_l (c : R) (a b : mat3) : dot (scale c a) b = scale c (dot a b).
Proof. entrywise. Qed.

Lemma scale_cancel (c : R) (a b : mat3) :
  c <> 0 -> scale c a = scale c b -> a = b.
Proof.
  intros Hc H.
  rewrite <- (scale_1 a), <- (scale_1 b), <- (Rinv_l c Hc), <- !scale_scale.
  now rewrite H.
Qed.

(** A matrix of non-zero determinant cancels on the left. *)
Lemma dot_cancel_l (a x y : mat3) :
  det a <> 0 -> dot a x = dot a y -> x = y.
Proof.
  intros Hdet H. apply (scale_cancel (det a)); [assumption |].
  rewrite <- (dot_eye3_l x), <- (dot_eye3_l y), <- !dot_scale_l, <- adj_dot.
  now rewrite !dot_assoc, H.
Qed.

Lemma transpose_injective (a b : mat3) : transpose a = transpose b -> a = b.
Proof.
  intros H. now rewrite <- (transpose_involutive a), H, transpose_involutive.
Qed.

(** What [transform_cell] returns under the contract of the factorisation:
    a lower-triangular cell with the absolute values of the factor's diagonal
    on its diagonal, and an orthogonal transform that carries the rows of
    the cell to the rows of the new cell. *)
Lemma transform_cell_shape (qr : mat3 -> mat3 * mat3) (c : mat3) :
  is_qr (transpose c) (qr (transpose c)) ->
  let r := snd (qr (transpose c)) in
  let new_cell := fst (transform_cell qr c) in
  let transform := snd (transform_cell qr c) in
  (m01 new_cell = 0 /\ m02 new_cell = 0 /\ m12 new_cell = 0)
  /\ (m00 new_cell = Rabs (m00 r) /\ m11 new_cell = Rabs (m11 r)
      /\ m22 new_cell = Rabs (m22 r))
  /\ dot (transpose transform) transform = eye3
  /\ new_cell = dot c (transpose transform)
  /\ det c * det c = (m00 r * m11 r * m22 r) * (m00 r * m11 r * m22 r).
Proof.
  destruct (qr (transpose c)) as [q r] eqn:Hqr.
  intros (Hdot & Horth & Hup). cbn [snd].
  rewrite (transform_cell_closed_form qr c q r Hqr). cbn [fst snd].
  set (s := diag (Spec.flip (m00 r)) (Spec.flip (m11 r)) (Spec.flip (m22 r))).
  assert (Hst : transpose s = s) by apply transpose_diag.
  assert (Hss : dot s s = eye3).
  { pose proof (flip_square (m00 r)). pose proof (flip_square (m11 r)).
    pose proof (flip_square (m22 r)). unfold s. entrywise; lra. }
  assert (Hrows : dot q (transpose q) = eye3) by now apply orthogonal_rows.
  pose proof Hup as (H10 & H20 & H21).
  split; [| split; [| split; [| split]]].
  - cbn [dot transpose diag s m00 m01 m02 m10 m11 m12 m20 m21 m22].
    rewrite H10, H20, H21. repeat split; ring.
  - cbn [dot transpose diag s m00 m01 m02 m10 m11 m12 m20 m21 m22].
    rewrite <- !flip_abs. repeat split; ring.
  - rewrite transpose_dot, transpose_involutive, Hst.
    rewrite dot_assoc, <- (dot_assoc s s (transpose q)), Hss, dot_eye3_l.
    exact Hrows.
  - rewrite transpose_dot, transpose_involutive, Hst, <- dot_assoc. f_equal.
    rewrite <- (transpose_involutive c), <- Hdot, transpose_dot, dot_assoc.
    unfold orthogonal in Horth. now rewrite Horth, dot_eye3_r.
  - assert (Hq : det q * det q = 1).
    { rewrite <- (det_transpose q) at 1. rewrite <- det_dot.
      unfold orthogonal in Horth. rewrite Horth. apply det_eye3. }
    rewrite <- (det_transpose c), <- Hdot, det_dot.
    rewrite (det_upper_triangular r Hup).
    transitivity ((det q * det q)
                  * ((m00 r * m11 r * m22 r) * (m00 r * m11 r * m22 r)));
      [ring | rewrite Hq; ring].
Qed.

Lemma Rabs_square (x : R) : Rabs x * Rabs x = x * x.
Proof.
  unfold Rabs. destruct (Rcase_abs x); ring.
Qed.

Lemma square_eq_pos (a b : R) : 0 <= a -> 0 <= b -> a * a = b * b -> a = b.
Proof. intros Ha Hb H. nra. Qed.

Lemma det_lower_triangular (a : mat3) :
  m01 a = 0 -> m02 a = 0 -> m12 a = 0 -> det a = m00 a * m11 a * m22 a.
Proof. intros H01 H02 H12. unfold det. rewrite H01, H02, H12. ring. Qed.

Lemma lammps_cell_det (a : mat3) : lammps_cell a -> det a <> 0.
Proof.
  intros ((H01 & H02 & H12) & (H0 & H1 & H2)).
  rewrite det_lower_triangular by assumption.
  assert (0 < m00 a * m11 a * m22 a)
    by (repeat apply Rmult_lt_0_compat; assumption).
  lra.
Qed.

(** Under the contract, a cell of non-zero volume is brought into the
    orientation LAMMPS reads. *)
Lemma transform_cell_lammps_cell (qr : mat3 -> mat3 * mat3) (c : mat3) :
  is_qr (transpose c) (qr (transpose c)) -> det c <> 0 ->
  lammps_cell (fst (transform_cell qr c)).
Proof.
  intros Hqr Hdet.
  destruct (transform_cell_shape qr c Hqr)
    as (Hlow & (E0 & E1 & E2) & _ & _ & Hsq).
  split; [exact Hlow |]. rewrite E0, E1, E2.
  set (r := snd (qr (transpose c))) in *.
  assert (Hprod : m00 r * m11 r * m22 r <> 0).
  { intros E. rewrite E in Hsq. apply Hdet. nra. }
  repeat split; apply Rabs_pos_lt; intros E; apply Hprod; rewrite E; ring.
Qed.

(** Two lower-triangular matrices with positive diagonals and the same
    Gram matrix are equal. *)
Lemma cholesky_unique (a b : mat3) :
  lammps_cell a -> lammps_cell b ->
  dot a (transpose a) = dot b (transpose b) -> a = b.
Proof.
  destruct a as [a00 a01 a02 a10 a11 a12 a20 a21 a22].
  destruct b as [b00 b01 b02 b10 b11 b12 b20 b21 b22].
  unfold lammps_cell. cbn [m00 m01 m02 m10 m11 m12 m20 m21 m22].
  intros ((-> & -> & ->) & (Ha0 & Ha1 & Ha2)) ((-> & -> & ->) & (Hb0 & Hb1 & Hb2)) H.
  pose proof (f_equal m00 H) as G00. pose proof (f_equal m10 H) as G10.
  pose proof (f_equal m11 H) as G11. pose proof (f_equal m20 H) as G20.
  pose proof (f_equal m21 H) as G21. pose proof (f_equal m22 H) as G22.
  cbn [dot transpose m00 m01 m02 m10 m11 m12 m20 m21 m22] in *. clear H.
  assert (E00 : a00 = b00) by (apply square_eq_pos; lra).
  subst b00.
  assert (E10 : a10 = b10) by (apply (Rmult_eq_reg_r a00); lra).
  subst b10.
  assert (E20 : a20 = b20) by (apply (Rmult_eq_reg_r a00); lra).
  subst b20.
  assert (E11 : a11 = b11) by (apply square_eq_pos; lra).
  subst b11.
  assert (E21 : a21 = b21) by (apply (Rmult_eq_reg_r a11); lra).
  subst b21.
  assert (E22 : a22 = b22) by (apply square_eq_pos; lra).
  subst b22. reflexivity.
Qed.

(** The orientation LAMMPS reads and the isometry that leads to it are
    determined by the cell. *)
Lemma lammps_form_unique (c a ta b tb : mat3) :
  det c <> 0 ->
  lammps_cell a -> dot (transpose ta) ta = eye3 -> a = dot c (transpose ta) ->
  lammps_cell b -> dot (transpose tb) tb = eye3 -> b = dot c (transpose tb) ->
  a = b /\ ta = tb.
Proof.
  intros Hdet Ha Hta Ea Hb Htb Eb.
  assert (Gram : forall x t, dot (transpose t) t = eye3 ->
            x = dot c (transpose t) ->
            dot x (transpose x) = dot c (transpose c)).
  { intros x t Ht ->. rewrite transpose_dot, transpose_involutive.
    rewrite dot_assoc, <- (dot_assoc (transpose t) t (transpose c)), Ht.
    now rewrite dot_eye3_l. }
  assert (Eab : a = b).
  { apply cholesky_unique; try assumption.
    now rewrite (Gram a ta Hta Ea), (Gram b tb Htb Eb). }
  split; [exact Eab |].
  apply transpose_injective, (dot_cancel_l c); [assumption |].
  now rewrite <- Ea, <- Eb.
Qed.

(** X1. [transform_cell] keeps the metric of the lattice: the scalar
    products of the rows of the returned cell, their lengths and the angles
    between them, are those of the rows of the original cell. *)
Theorem transform_cell_keeps_metric (qr : mat3 -> mat3 * mat3) (c : mat3) :
  is_qr (transpose c) (qr (transpose c)) ->
  let new_cell := fst (transform_cell qr c) in
  dot new_cell (transpose new_cell) = dot c (transpose c)
  /\ (forall i j : idx,
        inner (row new_cell i) (row new_cell j) = inner (row c i) (row c j)).
Proof.
  intros Hqr new_cell.
  destruct (transform_cell_shape qr c Hqr) as (_ & _ & Horth & Enew & _).
  fold new_cell in Enew.
  set (t := snd (transform_cell qr c)) in *.
  assert (G : dot new_cell (transpose new_cell) = dot c (transpose c)).
  { rewrite Enew, transpose_dot, transpose_involutive.
    rewrite dot_assoc, <- (dot_assoc (transpose t) t (transpose c)), Horth.
    now rewrite dot_eye3_l. }
  split; [exact G |].
  intros i j.
  assert (Hrow : forall a : mat3,
            inner (row a i) (row a j) = get (dot a (transpose a)) i j)
    by (intros a; destruct i, j; reflexivity).
  now rewrite !Hrow, G.
Qed.

Lemma transform_cell_keeps_metric_witness :
  let new_cell :=
    fst (transform_cell (Examples.qr_of Examples.q1 Examples.r1) Examples.cell1) in
  dot new_cell (transpose new_cell)
  = dot Examples.cell1 (transpose Examples.cell1).
Proof.
  refine (proj1 (transform_cell_keeps_metric
                   (Examples.qr_of Examples.q1 Examples.r1) Examples.cell1
                   example_is_qr)).
Defined.

(** X2. [transform_cell] keeps the volume and makes the cell right-handed:
    the determinant of the returned cell is the absolute value of the
    determinant of the original cell, and it is the product of the returned
    diagonal.  A cell of zero volume is not refused: it comes back with a
    zero on its diagonal. *)
Theorem transform_cell_keeps_volume (qr : mat3 -> mat3 * mat3) (c : mat3) :
  is_qr (transpose c) (qr (transpose c)) ->
  let new_cell := fst (transform_cell qr c) in
  det new_cell = Rabs (det c)
  /\ det new_cell = get new_cell I0 I0 * get new_cell I1 I1 * get new_cell I2 I2
  /\ (det c = 0 <->
      get new_cell I0 I0 = 0 \/ get new_cell I1 I1 = 0 \/ get new_cell I2 I2 = 0).
Proof.
  intros Hqr new_cell.
  destruct (transform_cell_shape qr c Hqr)
    as ((H01 & H02 & H12) & (E0 & E1 & E2) & _ & _ & Hsq).
  fold new_cell in H01, H02, H12, E0, E1, E2.
  set (r := snd (qr (transpose c))) in *.
  assert (Hdet : det new_cell = m00 new_cell * m11 new_cell * m22 new_cell)
    by (now apply det_lower_triangular).
  assert (Habs : det new_cell = Rabs (det c)).
  { rewrite Hdet, E0, E1, E2, <- !Rabs_mult.
    apply square_eq_pos; try apply Rabs_pos.
    now rewrite !Rabs_square. }
  split; [exact Habs | split; [exact Hdet |]].
  cbn [get]. split.
  - intros Hz. rewrite Hz, Rabs_R0, Hdet in Habs.
    destruct (Rmult_integral _ _ Habs) as [H | H]; [| tauto].
    destruct (Rmult_integral _ _ H); tauto.
  - intros Hz.
    assert (Hnew : det new_cell = 0)
      by (rewrite Hdet; destruct Hz as [-> | [-> | ->]]; ring).
    rewrite Habs in Hnew.
    destruct (Req_dec (det c) 0) as [E | E]; [exact E |].
    apply Rabs_no_R0 in E. contradiction.
Qed.

Lemma transform_cell_keeps_volume_witness :
  let new_cell :=
    fst (transform_cell (Examples.qr_of Examples.q1 Examples.r1) Examples.cell1) in
  det new_cell = Rabs (det Examples.cell1).
Proof.
  refine (proj1 (transform_cell_keeps_volume
                   (Examples.qr_of Examples.q1 Examples.r1) Examples.cell1
                   example_is_qr)).
Defined.

Lemma example_is_qr2 :
  is_qr (transpose Examples.cell1) (MoreExamples.q2, MoreExamples.r2).
Proof.
  unfold is_qr, orthogonal, upper_triangular, Examples.cell1, MoreExamples.q2,
    MoreExamples.r2.
  repeat split; try entrywise; cbn; ring.
Defined.

(** The factorisation of a triangular matrix into the identity and itself
    meets the contract. *)
Lemma qr_triangular_is_qr (a : mat3) :
  upper_triangular a -> is_qr a (MoreExamples.qr_triangular a).
Proof.
  intros Hup. unfold is_qr, MoreExamples.qr_triangular, orthogonal.
  rewrite dot_eye3_l, transpose_eye3, dot_eye3_l. auto.
Defined.

Lemma example_cell2_is_qr :
  is_qr (transpose MoreExamples.cell2)
        (MoreExamples.qr_triangular (transpose MoreExamples.cell2)).
Proof.
  apply qr_triangular_is_qr.
  unfold upper_triangular, MoreExamples.cell2; cbn. auto.
Defined.

Lemma example_cell2_det : det MoreExamples.cell2 <> 0.
Proof. unfold det, MoreExamples.cell2; cbn. lra. Defined.

Lemma example_cell3_lammps : lammps_cell MoreExamples.cell3.
Proof.
  unfold lammps_cell, MoreExamples.cell3; cbn. repeat split; lra.
Defined.

(** X3. For a cell of non-zero volume the result of [transform_cell] does
    not depend on which factorisation numpy returns: two factorisations that
    both meet the contract lead to the same cell and the same transform. *)
Theorem transform_cell_independent_of_qr (qr qr' : mat3 -> mat3 * mat3)
    (c : mat3) :
  is_qr (transpose c) (qr (transpose c)) ->
  is_qr (transpose c) (qr' (transpose c)) ->
  det c <> 0 ->
  transform_cell qr c = transform_cell qr' c.
Proof.
  intros Hqr Hqr' Hdet.
  destruct (transform_cell_shape qr c Hqr) as (_ & _ & Ht & Ea & _).
  destruct (transform_cell_shape qr' c Hqr') as (_ & _ & Ht' & Eb & _).
  destruct (lammps_form_unique c _ _ _ _ Hdet
              (transform_cell_lammps_cell qr c Hqr Hdet) Ht Ea
              (transform_cell_lammps_cell qr' c Hqr' Hdet) Ht' Eb)
    as [E1 E2].
  destruct (transform_cell qr c), (transform_cell qr' c).
  cbn [fst snd] in E1, E2. now subst.
Qed.

Lemma transform_cell_independent_of_qr_witness :
  transform_cell (Examples.qr_of Examples.q1 Examples.r1) Examples.cell1
  = transform_cell (Examples.qr_of MoreExamples.q2 MoreExamples.r2)
      Examples.cell1.
Proof.
  exact (transform_cell_independent_of_qr
           (Examples.qr_of Examples.q1 Examples.r1)
           (Examples.qr_of MoreExamples.q2 MoreExamples.r2)
           Examples.cell1 example_is_qr example_is_qr2 example_det).
Defined.

(** X4. A cell that is in the orientation LAMMPS reads already, that is
    lower-triangular with a positive diagonal, is returned as it is, with
    the identity as the transform. *)
Theorem transform_cell_fixes_lammps_cells (qr : mat3 -> mat3 * mat3)
    (c : mat3) :
  is_qr (transpose c) (qr (transpose c)) ->
  lammps_cell c ->
  transform_cell qr c = (c, eye3).
Proof.
  intros Hqr Hc.
  pose proof (lammps_cell_det c Hc) as Hdet.
  destruct (transform_cell_shape qr c Hqr) as (_ & _ & Ht & Ea & _).
  destruct (lammps_form_unique c _ _ c eye3 Hdet
              (transform_cell_lammps_cell qr c Hqr Hdet) Ht Ea Hc)
    as [E1 E2].
  - now rewrite transpose_eye3, dot_eye3_l.
  - now rewrite transpose_eye3, dot_eye3_r.
  - destruct (transform_cell qr c). cbn [fst snd] in E1, E2. now subst.
Qed.

Lemma transform_cell_fixes_lammps_cells_witness :
  transform_cell MoreExamples.qr_triangular MoreExamples.cell3
  = (MoreExamples.cell3, eye3).
Proof.
  apply (transform_cell_fixes_lammps_cells MoreExamples.qr_triangular
           MoreExamples.cell3).
  - apply qr_triangular_is_qr.
    unfold upper_triangular, MoreExamples.cell3; cbn. auto.
  - exact example_cell3_lammps.
Defined.

(** X5. [transform_cell] is idempotent on cells of non-zero volume: applied
    to the cell it returned, it returns that cell again, and the identity as
    the transform. *)
Theorem transform_cell_idempotent (qr : mat3 -> mat3 * mat3) (c : mat3) :
  is_qr (transpose c) (qr (transpose c)) ->
  det c <> 0 ->
  let new_cell := fst (transform_cell qr c) in
  is_qr (transpose new_cell) (qr (transpose new_cell)) ->
  transform_cell qr new_cell = (new_cell, eye3).
Proof.
  intros Hqr Hdet new_cell Hqr'.
  pose proof (transform_cell_lammps_cell qr c Hqr Hdet) as Hc.
  fold new_cell in Hc.
  pose proof (lammps_cell_det new_cell Hc) as Hdet'.
  destruct (transform_cell_shape qr new_cell Hqr') as (_ & _ & Ht & Ea & _).
  destruct (lammps_form_unique new_cell _ _ new_cell eye3 Hdet'
              (transform_cell_lammps_cell qr new_cell Hqr' Hdet') Ht Ea Hc)
    as [E1 E2].
  - now rewrite transpose_eye3, dot_eye3_l.
  - now rewrite transpose_eye3, dot_eye3_r.
  - destruct (transform_cell qr new_cell). cbn [fst snd] in E1, E2. now subst.
Qed.

Lemma transform_cell_idempotent_witness :
  let new_cell :=
    fst (transform_cell MoreExamples.qr_triangular MoreExamples.cell2) in
  transform_cell MoreExamples.qr_triangular new_cell = (new_cell, eye3).
Proof.
  apply (transform_cell_idempotent MoreExamples.qr_triangular
           MoreExamples.cell2 example_cell2_is_qr example_cell2_det).
  apply qr_triangular_is_qr.
  destruct (transform_cell_shape MoreExamples.qr_triangular MoreExamples.cell2
              example_cell2_is_qr) as ((H01 & H02 & H12) & _).
  unfold upper_triangular. cbn [transpose m10 m20 m21]. auto.
Defined.

(** ** More on the serializer *)

Local Open Scope string_scope.

Lemma get_combine_seq_inv (ks : list string) (a v : nat) (l : string) :
  Dict.get (combine ks (seq a (List.length ks))) l = Some v ->
  exists i, v = (a + i)%nat /\ nth_error ks i = Some l.
Proof.
  revert a. induction ks as [| k ks IH]; intros a; simpl.
  - discriminate.
  - destruct (String.eqb_spec k l) as [-> | Hne].
    + intros [= <-]. exists 0%nat. split; [lia | reflexivity].
    + intros H. destruct (IH (S a) H) as (i & -> & Hnth).
      exists (S i). split; [lia | exact Hnth].
Qed.

(** X6. The ids of the KindIndex are the atom types the header declares:
    every site has an id between 1 and the number of atom types, different
    species labels have different ids, and every number in that range is the
    id of the label of some site. *)
Theorem kind_ids_are_the_atom_types (sites : list Site) :
  let kind_name_id_map := kind_name_id_map_of sites in
  let n_types := Dict.len kind_name_id_map in
  (forall site, In site sites ->
     exists kind_id, Dict.get kind_name_id_map (kind_name site) = Some kind_id
                     /\ (1 <= kind_id <= n_types)%nat)
  /\ (forall l l' kind_id,
        Dict.get kind_name_id_map l = Some kind_id ->
        Dict.get kind_name_id_map l' = Some kind_id -> l = l')
  /\ (forall kind_id, (1 <= kind_id <= n_types)%nat ->
        exists site, In site sites
                     /\ Dict.get kind_name_id_map (kind_name site)
                        = Some kind_id).
Proof.
  intros kind_name_id_map n_types.
  set (labels := map kind_name sites).
  set (ks := Spec.first_encounter [] labels).
  assert (Hmap : kind_name_id_map = combine ks (seq 1 (List.length ks)))
    by apply kind_name_id_map_kind_index.
  assert (Hn : n_types = List.length ks).
  { unfold n_types. rewrite Hmap. unfold Dict.len.
    now rewrite length_combine, length_seq, Nat.min_id. }
  assert (Hinv : forall l v, Dict.get kind_name_id_map l = Some v ->
            exists i, v = S i /\ nth_error ks i = Some l).
  { intros l v Hget. rewrite Hmap in Hget.
    destruct (get_combine_seq_inv ks 1 v l Hget) as (i & -> & Hnth).
    exists i. split; [reflexivity | exact Hnth]. }
  split; [| split].
  - intros site Hin.
    destruct (Dict.get kind_name_id_map (kind_name site)) as [v |] eqn:Hget.
    2:{ exfalso. now apply (kind_name_id_map_total sites site). }
    exists v. split; [reflexivity |].
    destruct (Hinv _ _ Hget) as (i & -> & Hnth).
    assert (i < List.length ks)%nat by (apply nth_error_Some; congruence).
    lia.
  - intros l l' v Hl Hl'.
    destruct (Hinv _ _ Hl) as (i & -> & Hnth).
    destruct (Hinv _ _ Hl') as (i' & [= <-] & Hnth'). congruence.
  - intros v [Hlo Hhi].
    destruct (nth_error ks (v - 1)) as [l |] eqn:Hnth.
    2:{ apply nth_error_None in Hnth. lia. }
    assert (Hin : In l labels).
    { apply nth_error_In in Hnth. unfold ks in Hnth.
      apply first_encounter_In in Hnth. tauto. }
    apply in_map_iff in Hin. destruct Hin as (site & <- & Hsite).
    exists site. split; [exact Hsite |].
    rewrite Hmap.
    rewrite (DictFacts.get_combine_seq ks 1 (v - 1) (kind_name site)
               (first_encounter_NoDup _ _) Hnth).
    f_equal. lia.
Qed.

Lemma get_default_combine_seq (ks : list string) (a : nat) :
  NoDup ks ->
  map (fun l => Dict.get_default (combine ks (seq a (List.length ks))) l 0%nat)
      ks
  = seq a (List.length ks).
Proof.
  intros Hnd. apply nth_error_ext. intros i.
  rewrite nth_error_map.
  destruct (nth_error ks i) as [l |] eqn:Hnth; cbn [option_map].
  - unfold Dict.get_default.
    rewrite (DictFacts.get_combine_seq ks a i l Hnd Hnth).
    symmetry. rewrite nth_error_nth' with (d := 0%nat).
    + now rewrite seq_nth by (apply nth_error_Some; congruence).
    + rewrite length_seq. apply nth_error_Some. congruence.
  - symmetry. apply nth_error_None. rewrite length_seq.
    now apply nth_error_None.
Qed.



(** X9. A structure without sites is serialized, whatever its Kinds: the
    header declares no atoms and no atom types, and the mass table and the
    atom table are empty. *)
Theorem generate_without_sites (qr : mat3 -> mat3 * mat3)
    (np_round : R -> Z -> R) (fmt_20_10f str_float : R -> string)
    (structure : StructureData) (atom_style : string)
    (charge_dict : option (Dict.t R)) (round_dp : option Z)
    (docstring : string) :
  sites structure = [] ->
  atom_style = "atomic" \/ atom_style = "charge" ->
  generate_lammps_structure qr np_round fmt_20_10f str_float structure
    atom_style charge_dict round_dp docstring
  = Ok ("# " ++ docstring ++ nl ++ nl
        ++ "0 atoms" ++ nl
        ++ "0 atom types" ++ nl ++ nl
        ++ box_text fmt_20_10f
             (rendered_cell np_round round_dp
                (fst (transform_cell qr (cell structure))))
        ++ "Masses" ++ nl ++ nl
        ++ nl
        ++ "Atoms" ++ nl ++ nl,
        snd (transform_cell qr (cell structure))).
Proof.
  intros Hsites Hstyle.
  rewrite generate_ok; [| assumption | rewrite Hsites; constructor].
  unfold file_text, mass_table, atom_table, header_text.
  rewrite Hsites. cbn [kind_name_id_map_of fold_left Dict.empty Dict.len
                       Dict.keys List.length map combine atom_lines join
                       fold_right].
  change (sorted []) with (@nil string). cbn [map join fold_right].
  do 2 f_equal. now rewrite !append_assoc.
Qed.

Lemma generate_without_sites_witness :
  exists text : string,
    generate_lammps_structure MoreExamples.qr_triangular Examples.no_round
      Examples.fmt_any Examples.fmt_any MoreExamples.no_sites "charge" None
      None "generated by aiida_lammps"
    = Ok (text, snd (transform_cell MoreExamples.qr_triangular
                       (cell MoreExamples.no_sites))).
Proof.
  eexists.
  apply (generate_without_sites MoreExamples.qr_triangular Examples.no_round
           Examples.fmt_any Examples.fmt_any MoreExamples.no_sites "charge"
           None None "generated by aiida_lammps").
  - reflexivity.
  - right; reflexivity.
Defined.

Lemma atoms_loop_atomic (fmt_20_10f str_float : R -> string)
    (charge_dict charge_dict' : Dict.t R) (kind_name_id_map : Dict.t nat)
    (zipped : list (vec3 * Site)) (site_index : nat) (filestring : string) :
  atoms_loop fmt_20_10f str_float "atomic" charge_dict kind_name_id_map
    site_index zipped filestring
  = atoms_loop fmt_20_10f str_float "atomic" charge_dict' kind_name_id_map
      site_index zipped filestring.
Proof.
  revert site_index filestring.
  induction zipped as [| [pos site] zipped IH]; intros site_index filestring.
  - reflexivity.
  - cbn [atoms_loop]. unfold atoms_body.
    change (String.eqb "atomic" "charge") with false.
    destruct (Dict.getitem kind_name_id_map (kind_name site)); cbn [bind];
      [apply IH | reflexivity].
Qed.

(** X10. With the atom style ["atomic"] the charges play no part: two
    calls that differ in nothing but [charge_dict] have the same outcome. *)
Theorem atomic_ignores_charges (qr : mat3 -> mat3 * mat3)
    (np_round : R -> Z -> R) (fmt_20_10f str_float : R -> string)
    (structure : StructureData) (charge_dict charge_dict' : option (Dict.t R))
    (round_dp : option Z) (docstring : string) :
  generate_lammps_structure qr np_round fmt_20_10f str_float structure
    "atomic" charge_dict round_dp docstring
  = generate_lammps_structure qr np_round fmt_20_10f str_float structure
      "atomic" charge_dict' round_dp docstring.
Proof.
  unfold generate_lammps_structure.
  change (negb (existsb (String.eqb "atomic") ["atomic"; "charge"])) with false.
  cbv iota.
  destruct (transform_cell qr (atoms_cell (get_ase structure))) as [c t].
  match goal with
  | |- (let '(_, _) := ?rounded in _) = _ => destruct rounded as [c' ps]
  end.
  destruct (masses_loop fmt_20_10f (kind_name_id_map_of (sites structure))
              (kind_mass_dict_of (kinds structure))
              (sorted (Dict.keys (kind_name_id_map_of (sites structure)))) _)
    as [filestring | e]; cbn [bind]; [| reflexivity].
  rewrite (atoms_loop_atomic fmt_20_10f str_float _
             (match charge_dict' with None => Dict.empty | Some d => d end)).
  reflexivity.
Qed.

Lemma atoms_loop_charges_agree (fmt_20_10f str_float : R -> string)
    (atom_style : string) (charge_dict charge_dict' : Dict.t R)
    (kind_name_id_map : Dict.t nat) (zipped : list (vec3 * Site))
    (site_index : nat) (filestring : string) :
  Forall (fun ps => Dict.get_default charge_dict (kind_name (snd ps)) 0%R
                    = Dict.get_default charge_dict' (kind_name (snd ps)) 0%R)
         zipped ->
  atoms_loop fmt_20_10f str_float atom_style charge_dict kind_name_id_map
    site_index zipped filestring
  = atoms_loop fmt_20_10f str_float atom_style charge_dict' kind_name_id_map
      site_index zipped filestring.
Proof.
  intros Hall. revert site_index filestring.
  induction Hall as [| [pos site] zipped Hsite _ IH];
    intros site_index filestring.
  - reflexivity.
  - cbn [atoms_loop]. unfold atoms_body.
    replace 0.0%R with 0%R by lra. cbn [snd] in Hsite. rewrite Hsite.
    destruct (Dict.getitem kind_name_id_map (kind_name site)); cbn [bind];
      [apply IH | reflexivity].
Qed.



Lemma kind_mass_dict_fold_app (kinds kinds' : list Kind) (acc : Dict.t R) :
  fold_left (fun d kind => Dict.set d (name kind) (mass kind))
            (kinds ++ kinds')%list acc
  = fold_left (fun d kind => Dict.set d (name kind) (mass kind)) kinds'
      (fold_left (fun d kind => Dict.set d (name kind) (mass kind)) kinds acc).
Proof. apply fold_left_app. Qed.

(** X12. When several Kinds carry the same label, the mass found under the
    label, which is the mass the mass table renders, is that of the last of
    them. *)
Theorem last_kind_gives_the_mass (before after : list Kind) (kind : Kind) :
  ~ In (name kind) (map name after) ->
  Dict.get (kind_mass_dict_of (before ++ kind :: after)%list) (name kind)
  = Some (mass kind).
Proof.
  intros Hlast. unfold kind_mass_dict_of.
  rewrite kind_mass_dict_fold_app. cbn [fold_left].
  rewrite kind_mass_dict_fold_other by assumption.
  apply DictFacts.get_set_same.
Qed.

Lemma last_kind_gives_the_mass_witness :
  Dict.get (kind_mass_dict_of MoreExamples.fe_twice) "Fe" = Some 55.845%R.
Proof.
  apply (last_kind_gives_the_mass
           [ {| name := "Fe"; mass := 1 |}; {| name := "O"; mass := 15.999 |} ]
           [] {| name := "Fe"; mass := 55.845 |}).
  simpl. tauto.
Defined.

(** ** The calculation plugin *)

Section CalcFacts.

Variable qr : mat3 -> mat3 * mat3.
Variable np_round : R -> Z -> R.
Variable fmt_20_10f : R -> string.
Variable str_float : R -> string.
Variable generate_input_file :
  Calc.LammpsPotentialData -> StructureData -> Dict.t Calc.pyvalue ->
  string -> string -> string -> option string -> string + string.

(** The folder once the restart file of the inputs, if there is one, has
    been written. *)
Definition with_restart_file (self : Calc.CalcJob) (folder : Calc.Folder)
    : Calc.Folder :=
  match Calc.input_restartfile (Calc.inputs self) with
  | Some content => Dict.set folder Calc._DEFAULT_READ_RESTART_FILENAME content
  | None => folder
  end.

(** The name under which the input script reads the restart file. *)
Definition read_restart_filename (self : Calc.CalcJob) : option string :=
  match Calc.input_restartfile (Calc.inputs self) with
  | Some _ => Some Calc._DEFAULT_READ_RESTART_FILENAME
  | None => None
  end.

(** The four files that are always retrieved. *)
Definition always_retrieved (self : Calc.CalcJob) : list string :=
  [ Calc.output_filename (Calc.options (Calc.inputs self));
    Calc.logfile_filename (Calc.options (Calc.inputs self));
    Calc.variables_filename (Calc.options (Calc.inputs self));
    Calc.trajectory_filename (Calc.options (Calc.inputs self)) ].

Definition the_codeinfo (self : Calc.CalcJob) : Calc.CodeInfo :=
  {| Calc.cmdline_params :=
       [ "-in"; Calc.input_filename (Calc.options (Calc.inputs self));
         "-log"; Calc.logfile_filename (Calc.options (Calc.inputs self)) ];
     Calc.code_uuid := Calc.code_uuid_of (Calc.inputs self);
     Calc.stdout_name := Calc.output_filename (Calc.options (Calc.inputs self)) |}.

(** [prepare_for_submission] as the composition of its three stages. *)
Lemma prepare_for_submission_stages (self : Calc.CalcJob)
    (folder : Calc.Folder) :
  Calc.prepare_for_submission qr np_round fmt_20_10f str_float
    generate_input_file self folder
  = match
      match Calc.script (Calc.inputs self) with
      | Some content => (with_restart_file self folder, Calc.Done (content, Dict.empty))
      | None =>
          Calc.files_of_the_inputs qr np_round fmt_20_10f str_float
            generate_input_file self
            (Calc.restart_filename (Calc.options (Calc.inputs self)))
            (Calc.trajectory_filename (Calc.options (Calc.inputs self)))
            (Calc.variables_filename (Calc.options (Calc.inputs self)))
            (read_restart_filename self) (with_restart_file self folder)
      end
    with
    | (folder', Calc.Fail e) => (folder', Calc.Fail e)
    | (folder', Calc.Done (input_filecontent, _parameters)) =>
        let written :=
          Dict.set folder'
            (Calc.input_filename (Calc.options (Calc.inputs self)))
            input_filecontent in
        match Calc.restart_retrieval _parameters
                (Calc.restart_filename (Calc.options (Calc.inputs self)))
                (always_retrieved self) [] written with
        | (folder'', Calc.Fail e) => (folder'', Calc.Fail e)
        | (folder'', Calc.Done lists) =>
            (folder'',
             Calc.Done {| Calc.calc_uuid := Calc.uuid self;
                          Calc.retrieve_temporary_list := snd lists;
                          Calc.retrieve_list := fst lists;
                          Calc.codes_info := [the_codeinfo self] |})
        end
    end.
Proof.
  unfold Calc.prepare_for_submission, with_restart_file, read_restart_filename,
    always_retrieved, the_codeinfo.
  unfold Calc.mbind at 1 2 3 4 5.
  destruct (Calc.input_restartfile (Calc.inputs self)) as [restart |];
    destruct (Calc.script (Calc.inputs self)) as [content |];
    cbn [Calc.mbind Calc.ret Calc.write_file fst snd app].
  all: try reflexivity.
  all: destruct (Calc.files_of_the_inputs _ _ _ _ _ _ _ _ _ _ _)
         as [folder' [[input_filecontent _parameters] | e]]; reflexivity.
Qed.

(** The retrieval of the restart files changes nothing in the folder, and
    depends on the [restart] entry of the parameters alone. *)
Lemma restart_retrieval_cases (_parameters : Dict.t Calc.pyvalue)
    (_restart_filename : string) (retrieve_list : list string)
    (retrieve_temporary_list : list (string * string * option Z))
    (folder : Calc.Folder) :
  Calc.restart_retrieval _parameters _restart_filename retrieve_list
    retrieve_temporary_list folder
  = (folder,
     match Dict.get _parameters "restart" with
     | None => Calc.Done (retrieve_list, retrieve_temporary_list)
     | Some (Calc.PyDict d) =>
         Calc.Done
           ((retrieve_list
             ++ if Calc.truth (Dict.get_default d "print_final"
                                 (Calc.PyBool false))
                then [_restart_filename] else [])%list,
            (retrieve_temporary_list
             ++ if Calc.truth (Dict.get_default d "print_intermediate"
                                 (Calc.PyBool false))
                then [((_restart_filename ++ "*")%string, ".", None)]
                else [])%list)
     | Some _ => Calc.Fail (Calc.AttributeError "get")
     end).
Proof.
  unfold Calc.restart_retrieval, Dict.contains, Dict.get_default.
  destruct (Dict.get _parameters "restart") as [v |]; [| reflexivity].
  destruct v; try reflexivity.
  unfold Calc.mbind, Calc.lift, Calc.ret, Calc.py_get.
  destruct (Calc.truth _), (Calc.truth _); now rewrite ?app_nil_r.
Qed.

(** The branch without a script, case by case. *)
Lemma files_of_the_inputs_cases (self : Calc.CalcJob)
    (_restart_filename _trajectory_filename _variables_filename : string)
    (_read_restart_filename : option string) (folder : Calc.Folder) :
  Calc.files_of_the_inputs qr np_round fmt_20_10f str_float
    generate_input_file self _restart_filename _trajectory_filename
    _variables_filename _read_restart_filename folder
  = match Calc.parameters (Calc.inputs self) with
    | None => (folder, Calc.Fail (Calc.AttributeError "parameters"))
    | Some _parameters =>
    match Calc.structure (Calc.inputs self) with
    | None => (folder, Calc.Fail (Calc.AttributeError "structure"))
    | Some the_structure =>
    match Calc.potential (Calc.inputs self) with
    | None => (folder, Calc.Fail (Calc.AttributeError "potential"))
    | Some the_potential =>
    match generate_lammps_structure qr np_round fmt_20_10f str_float
            the_structure (Calc.atom_style the_potential) None None
            "generated by aiida_lammps" with
    | Raise e => (folder, Calc.Fail (Calc.StructureError e))
    | Ok (structure_filecontent, _) =>
        let written :=
          Dict.set
            (Dict.set folder
               (Calc.structure_filename (Calc.options (Calc.inputs self)))
               structure_filecontent)
            Calc._DEFAULT_POTENTIAL_FILENAME
            (Calc.get_content the_potential) in
        match generate_input_file the_potential the_structure _parameters
                _restart_filename _trajectory_filename _variables_filename
                _read_restart_filename with
        | inl input_filecontent =>
            (written, Calc.Done (input_filecontent, _parameters))
        | inr message => (written, Calc.Fail (Calc.InputFileError message))
        end
    end end end end.
Proof.
  unfold Calc.files_of_the_inputs, Calc.mbind, Calc.getattr, Calc.ret,
    Calc.lift, Calc.write_file.
  destruct (Calc.parameters (Calc.inputs self)); [| reflexivity].
  destruct (Calc.structure (Calc.inputs self)); [| reflexivity].
  destruct (Calc.potential (Calc.inputs self)); [| reflexivity].
  destruct (generate_lammps_structure _ _ _ _ _ _ _ _ _)
    as [[text transform] | e]; [| reflexivity].
  destruct (generate_input_file _ _ _ _ _ _ _); reflexivity.
Qed.

(** Whether the parameters ask for a restart file: the truth value of the
    entry [key] of their [restart] dictionary, false when there is none. *)
Definition asks_for (_parameters : Dict.t Calc.pyvalue) (key : string) : bool :=
  match Dict.get _parameters "restart" with
  | Some (Calc.PyDict d) =>
      Calc.truth (Dict.get_default d key (Calc.PyBool false))
  | _ => false
  end.







End CalcFacts.

(** *** The example calculations *)

Lemma example_structure_is_serialized :
  generate_lammps_structure (Examples.qr_of Examples.q1 Examples.r1)
    Examples.no_round Examples.fmt_any Examples.fmt_any Examples.fe2o
    "atomic" None None "generated by aiida_lammps"
  = Ok (file_text (Examples.qr_of Examples.q1 Examples.r1) Examples.no_round
          Examples.fmt_any Examples.fmt_any Examples.fe2o "atomic" None None
          "generated by aiida_lammps",
        snd (transform_cell (Examples.qr_of Examples.q1 Examples.r1)
               (cell Examples.fe2o))).
Proof.
  apply generate_ok.
  - left; reflexivity.
  - repeat (first [apply Forall_nil | apply Forall_cons]); simpl; auto.
Qed.

Lemma example_calculation_runs :
  exists (folder' : Calc.Folder) (calcinfo : Calc.CalcInfo),
    Calc.prepare_for_submission (Examples.qr_of Examples.q1 Examples.r1)
      Examples.no_round Examples.fmt_any Examples.fmt_any
      CalcExamples.any_input_file
      (CalcExamples.on_structure Examples.fe2o "atomic") []
    = (folder', Calc.Done calcinfo).
Proof.
  rewrite prepare_for_submission_stages, files_of_the_inputs_cases.
  unfold CalcExamples.on_structure, CalcExamples.pair_potential.
  cbn [Calc.inputs Calc.script Calc.parameters Calc.structure Calc.potential
       Calc.atom_style].
  rewrite example_structure_is_serialized. cbv zeta.
  unfold CalcExamples.any_input_file.
  rewrite restart_retrieval_cases.
  change (Dict.get CalcExamples.with_final_restart "restart")
    with (Some (Calc.PyDict [("print_final", Calc.PyBool true)])).
  do 2 eexists. reflexivity.
Qed.





